(** * Car sales dashboard: the script [car_sales_dashboard.py] and its specification

    The dashboard is one linear script, re-run from the cached base table at
    every change of a widget.  It is embedded here as a function [run] from
    the base table and the state of the widgets to the page it renders, in an
    error monad for the exceptions the pandas calls can raise.

    What is modelled of pandas and Streamlit:
    - a DataFrame is an ordered list of named, typed columns ([table]); the
      dtypes are those [read_csv] infers: int64, float64, object and bool;
    - a float64 value is an exact rational and NaN is [None]: the rounding of
      binary floating point is outside the model;
    - the cells of an object column are strings or NaN, as [read_csv] builds
      them;
    - a select box returns one of its options: the stored choice when it is
      one of them, the first option otherwise, and nothing for no options;
    - Plotly only receives the data computed here; what it draws is outside
      the model. *)

From Stdlib Require Import List String Ascii ZArith QArith Bool Lia.
From Stdlib Require Import Permutation Sorted OrderedTypeEx.
From Stdlib Require Import Decimal DecimalString DecimalZ.
Import ListNotations.

Local Close Scope Q_scope.
Local Open Scope list_scope.
Local Open Scope string_scope.

(** ** Exceptions *)

Inductive exn : Type :=
| KeyError (key : option string)
| TypeError
| IndexError
| ParserError.

Inductive result (A : Type) : Type :=
| Ok (a : A)
| Raise (e : exn).

Arguments Ok {A} a.
Arguments Raise {A} e.

Definition bind {A B : Type} (m : result A) (k : A -> result B) : result B :=
  match m with
  | Ok a => k a
  | Raise e => Raise e
  end.

Notation "x <- m ;; k" := (bind m (fun x => k))
  (at level 61, m at next level, right associativity).

Fixpoint mapM {A B : Type} (f : A -> result B) (l : list A) : result (list B) :=
  match l with
  | [] => Ok []
  | a :: l' => b <- f a ;; bs <- mapM f l' ;; Ok (b :: bs)
  end.

(** ** Tables *)

Inductive dtype : Type := dt_int64 | dt_float64 | dt_object | dt_bool.

Definition dtype_eqb (a b : dtype) : bool :=
  match a, b with
  | dt_int64, dt_int64 | dt_float64, dt_float64
  | dt_object, dt_object | dt_bool, dt_bool => true
  | _, _ => false
  end.

(** A column of a DataFrame with its values; an int64 or bool column has no
    missing value, a float64 or object column marks one by NaN ([None]). *)
Inductive series : Type :=
| IntSeries (v : list Z)
| FloatSeries (v : list (option Q))
| ObjectSeries (v : list (option string))
| BoolSeries (v : list bool).

Definition dtype_of (s : series) : dtype :=
  match s with
  | IntSeries _ => dt_int64
  | FloatSeries _ => dt_float64
  | ObjectSeries _ => dt_object
  | BoolSeries _ => dt_bool
  end.

Definition series_len (s : series) : nat :=
  match s with
  | IntSeries v => List.length v
  | FloatSeries v => List.length v
  | ObjectSeries v => List.length v
  | BoolSeries v => List.length v
  end.

Definition table : Type := list (string * series).

(** [df.columns] *)
Definition columns (df : table) : list string := map fst df.

(** [len(df)]: the rows of the first column, 0 for a frame with no column. *)
Definition nrows (df : table) : nat :=
  match df with
  | [] => 0
  | c :: _ => series_len (snd c)
  end.

(** What [read_csv] guarantees of the frame it returns: the column names are
    distinct and the columns have the same number of rows. *)
Definition well_formed (df : table) : Prop :=
  NoDup (columns df) /\ forall c, In c df -> series_len (snd c) = nrows df.

(** [df.select_dtypes(include=...)] *)
Definition select_dtypes (include : list dtype) (df : table) : table :=
  filter (fun c => existsb (dtype_eqb (dtype_of (snd c))) include) df.

(** [df[key]]; a select box over no option hands over [None], which is no
    column. *)
Definition getitem (df : table) (key : option string) : result series :=
  match key with
  | None => Raise (KeyError None)
  | Some c =>
      match find (fun p => fst p =? c) df with
      | Some p => Ok (snd p)
      | None => Raise (KeyError key)
      end
  end.

(** The values of an object column.  The script reads them only from the
    columns of [categorical_cols]; on any other dtype this view fails. *)
Definition object_values (s : series) : result (list (option string)) :=
  match s with
  | ObjectSeries v => Ok v
  | _ => Raise TypeError
  end.

(** The values of a column as float64, as the numeric reductions see them;
    pandas refuses to reduce strings. *)
Definition float_values (s : series) : result (list (option Q)) :=
  match s with
  | IntSeries v => Ok (map (fun z => Some (inject_Z z)) v)
  | FloatSeries v => Ok v
  | BoolSeries v => Ok (map (fun b : bool => Some (inject_Z (if b then 1 else 0))) v)
  | ObjectSeries _ => Raise TypeError
  end.

(** ** Series operations *)

(** [s.dropna()] on values *)
Fixpoint dropna {A : Type} (l : list (option A)) : list A :=
  match l with
  | [] => []
  | Some a :: l' => a :: dropna l'
  | None :: l' => dropna l'
  end.

(** [s.unique()]: the distinct values in order of first appearance. *)
Fixpoint unique (l : list string) : list string :=
  match l with
  | [] => []
  | a :: l' => a :: filter (fun b => negb (b =? a)) (unique l')
  end.

Section Sorting.
Context {A : Type} (le : A -> A -> bool).

Fixpoint insert (x : A) (l : list A) : list A :=
  match l with
  | [] => [x]
  | y :: l' => if le x y then x :: l else y :: insert x l'
  end.

(** A stable sort: an element stays ahead of the later ones it ties with. *)
Definition sort_by (l : list A) : list A := fold_right insert [] l.
End Sorting.

(** Python's [sorted] on strings: code point order, which on UTF-8 encoded
    strings is the byte order of [String.leb]. *)
Definition sorted (l : list string) : list string := sort_by String.leb l.

Definition Qsum (l : list Q) : Q := fold_right Qplus 0%Q l.

(** [s.mean()]: the mean of the values that are not NaN, NaN when there is
    none. *)
Definition nanmean (l : list (option Q)) : option Q :=
  match dropna l with
  | [] => None
  | v => Some (Qred (Qsum v / inject_Z (Z.of_nat (List.length v)))%Q)
  end.

Definition mean (s : series) : result (option Q) :=
  v <- float_values s ;; Ok (nanmean v).

(** [s == value], element by element; NaN equals nothing. *)
Definition eq_value (v : list (option string)) (value : string) : list bool :=
  map (fun c => match c with Some s => s =? value | None => false end) v.

(** The values kept by a boolean mask. *)
Fixpoint take_mask {A : Type} (mask : list bool) (l : list A) : list A :=
  match mask, l with
  | b :: mask', a :: l' => if b then a :: take_mask mask' l' else take_mask mask' l'
  | _, _ => []
  end.

Definition series_mask (mask : list bool) (s : series) : series :=
  match s with
  | IntSeries v => IntSeries (take_mask mask v)
  | FloatSeries v => FloatSeries (take_mask mask v)
  | ObjectSeries v => ObjectSeries (take_mask mask v)
  | BoolSeries v => BoolSeries (take_mask mask v)
  end.

(** [df[mask]]: the rows where the mask holds, every column kept. *)
Definition boolean_index (df : table) (mask : list bool) : table :=
  map (fun c => (fst c, series_mask mask (snd c))) df.

(** [s.head(n)] *)
Definition head {A : Type} (n : nat) (l : list A) : list A := firstn n l.

(** ** Aggregations *)

(** The values of [vals] in the rows whose key is [g]. *)
Definition group_values {A : Type} (g : string) (keys : list (option string))
    (vals : list A) : list A :=
  take_mask (eq_value keys g) vals.

(** [df.groupby(x)[y].mean()]: one entry per distinct key that is not NaN, in
    sorted key order, holding the mean of the group's values. *)
Definition groupby_mean (keys : list (option string)) (vals : list (option Q))
    : list (string * option Q) :=
  map (fun g => (g, nanmean (group_values g keys vals)))
      (sorted (unique (dropna keys))).

(** The order of [sort_values(ascending=False)]: larger values first, NaN
    last. *)
Definition ge_nan_last (a b : option Q) : bool :=
  match a, b with
  | Some x, Some y => Qle_bool y x
  | Some _, None => true
  | None, Some _ => false
  | None, None => true
  end.

Definition sort_values_desc {K : Type} (s : list (K * option Q)) : list (K * option Q) :=
  sort_by (fun a b => ge_nan_last (snd a) (snd b)) s.

Definition count_of (g : string) (l : list string) : nat :=
  List.length (filter (fun x => x =? g) l).

(** [s.value_counts()]: the number of occurrences of every distinct value
    that is not NaN, most frequent first. *)
Definition value_counts (v : list (option string)) : list (string * nat) :=
  let vals := dropna v in
  sort_by (fun a b => Nat.leb (snd b) (snd a))
          (map (fun g => (g, count_of g vals)) (unique vals)).

(** ** CSV files

    A CSV file is taken after tokenizing: a header and records of fields.
    The quoting and the delimiters of the text are the csv writer's and the
    tokenizer's own and are not modelled. *)

Record csv_file : Type := { header : list string; records : list (list string) }.

Definition string_of_Z (z : Z) : string :=
  NilZero.string_of_int (Z.to_int z).

Fixpoint frac_digits (fuel : nat) (r d : Z) : string :=
  match fuel with
  | O => ""
  | S fuel' =>
      if (r =? 0)%Z then ""
      else String (ascii_of_nat (48 + Z.to_nat (10 * r / d)))
                  (frac_digits fuel' ((10 * r) mod d) d)
  end.

(** The text of a float64: the decimal expansion of the rational, with at
    least one and at most 17 digits after the point.  Python prints the
    shortest digits that read back as the same binary float and switches to
    exponent notation for very large and very small values; neither is
    modelled. *)
Definition repr_float (q : Q) : string :=
  let n := Z.abs (Qnum q) in
  let d := Zpos (Qden q) in
  let frac := frac_digits 17 (n mod d) d in
  (if (Qnum q <? 0)%Z then "-" else "")
  ++ string_of_Z (n / d) ++ "."
  ++ (if frac =? "" then "0" else frac).

(** [na_rep] is the empty string. *)
Definition render (s : series) : list string :=
  match s with
  | IntSeries v => map string_of_Z v
  | FloatSeries v =>
      map (fun c => match c with Some q => repr_float q | None => "" end) v
  | ObjectSeries v => map (fun c => match c with Some x => x | None => "" end) v
  | BoolSeries v => map (fun b : bool => if b then "True" else "False") v
  end.

(** [df.to_csv(index=False)]: the names, then one record per row holding
    the text of each cell of the row. *)
Definition to_csv (df : table) : csv_file :=
  {| header := columns df;
     records := map (fun i => map (fun c => nth i (render (snd c)) "") df)
                    (seq 0 (nrows df)) |}.

(** *** Reading fields *)

Definition is_space (c : ascii) : bool :=
  let n := nat_of_ascii c in
  Nat.eqb n 32 || (Nat.leb 9 n && Nat.leb n 13).

Definition digit_value (c : ascii) : option Z :=
  let n := nat_of_ascii c in
  if Nat.leb 48 n && Nat.leb n 57 then Some (Z.of_nat n - 48)%Z else None.

Fixpoint skip_spaces (l : list ascii) : list ascii :=
  match l with
  | c :: l' => if is_space c then skip_spaces l' else l
  | [] => []
  end.

(** Reads the digits at the head of [l] after the value [acc] and the [n]
    digits already read. *)
Fixpoint read_digits (l : list ascii) (acc : Z) (n : nat) : Z * nat * list ascii :=
  match l with
  | c :: l' =>
      match digit_value c with
      | Some d => read_digits l' (10 * acc + d)%Z (S n)
      | None => (acc, n, l)
      end
  | [] => (acc, n, [])
  end.

Definition read_sign (l : list ascii) : bool * list ascii :=
  match l with
  | "-"%char :: l' => (true, l')
  | "+"%char :: l' => (false, l')
  | _ => (false, l)
  end.

Definition in_int64 (z : Z) : bool :=
  ((- 2 ^ 63 <=? z) && (z <? 2 ^ 63))%Z.

(** An integer field: blanks, a sign, digits, blanks.  A value beyond int64
    is no int64 (pandas then tries uint64, a dtype left out here). *)
Definition parse_int (s : string) : option Z :=
  let '(neg, l) := read_sign (skip_spaces (list_ascii_of_string s)) in
  let '(v, n, l) := read_digits l 0 0 in
  match n, skip_spaces l with
  | S _, [] =>
      let z := if neg : bool then (- v)%Z else v in
      if in_int64 z then Some z else None
  | _, _ => None
  end.

Definition pow10 (e : Z) : Q :=
  if (e <? 0)%Z then (1 # Pos.pow 10 (Z.to_pos (- e)))%Q
  else inject_Z (10 ^ e).

(** A float field: blanks, a sign, digits with an optional point, an
    optional exponent, blanks; at least one digit before the exponent. *)
Definition parse_float (s : string) : option Q :=
  let '(neg, l) := read_sign (skip_spaces (list_ascii_of_string s)) in
  let '(ip, n1, l) := read_digits l 0 0 in
  let '(m, n2, l) :=
    match l with
    | "."%char :: l' => read_digits l' ip 0
    | _ => (ip, 0%nat, l)
    end in
  let '(e, ok, l) :=
    match l with
    | "e"%char :: l' | "E"%char :: l' =>
        let '(eneg, l1) := read_sign l' in
        let '(ev, n3, l2) := read_digits l1 0 0 in
        ((if eneg : bool then - ev else ev)%Z, Nat.ltb 0 n3, l2)
    | _ => (0%Z, true, l)
    end in
  match (n1 + n2)%nat, ok, skip_spaces l with
  | S _, true, [] =>
      let v := Qred (inject_Z m * pow10 (e - Z.of_nat n2))%Q in
      Some (if neg : bool then Qopp v else v)
  | _, _, _ => None
  end.

Definition parse_bool (s : string) : option bool :=
  if existsb (String.eqb s) ["True"; "TRUE"; "true"] then Some true
  else if existsb (String.eqb s) ["False"; "FALSE"; "false"] then Some false
  else None.

(** The fields [read_csv] reads as a missing value. *)
Definition na_values : list string :=
  [""; "#N/A"; "#N/A N/A"; "#NA"; "-1.#IND"; "-1.#QNAN"; "-NaN"; "-nan";
   "1.#IND"; "1.#QNAN"; "<NA>"; "N/A"; "NA"; "NULL"; "NaN"; "None"; "n/a";
   "nan"; "null"].

Definition is_na (s : string) : bool := existsb (String.eqb s) na_values.

Fixpoint all_some {A : Type} (l : list (option A)) : option (list A) :=
  match l with
  | [] => Some []
  | Some a :: l' => option_map (cons a) (all_some l')
  | None :: l' => None
  end.

(** A field that may be missing. *)
Definition or_na {A : Type} (parse : string -> option A) (f : string)
    : option (option A) :=
  if is_na f then Some None else option_map Some (parse f).

(** The dtype [read_csv] gives a column, tried in the order int64, float64,
    bool, object.  A column with no row is an object column; a missing value
    turns integers into floats and booleans into objects, printed here as
    the strings [to_csv] writes for them. *)
Definition infer_column (fields : list string) : series :=
  match fields with
  | [] => ObjectSeries []
  | _ =>
      match all_some (map parse_int fields) with
      | Some v => IntSeries v
      | None =>
          match all_some (map (or_na parse_float) fields) with
          | Some v => FloatSeries v
          | None =>
              match all_some (map parse_bool fields) with
              | Some v => BoolSeries v
              | None =>
                  match all_some (map (or_na parse_bool) fields) with
                  | Some v =>
                      ObjectSeries
                        (map (option_map (fun b : bool => if b then "True" else "False")) v)
                  | None =>
                      ObjectSeries
                        (map (fun f => if is_na f then None else Some f) fields)
                  end
              end
          end
      end
  end.

(** [pd.read_csv]: one column per name of the header, read from the fields
    at its position; a short record is filled with missing values and a
    record longer than the header is refused.  The names are taken as they
    are (pandas renames repeated and empty names, which a written table does
    not have). *)
Definition read_csv (f : csv_file) : result table :=
  match header f with
  | [] => Raise ParserError
  | _ =>
      if forallb (fun r => Nat.leb (List.length r) (List.length (header f))) (records f)
      then Ok (map (fun i => (nth i (header f) "",
                              infer_column (map (fun r => nth i r "") (records f))))
                   (seq 0 (List.length (header f))))
      else Raise ParserError
  end.

(** ** The script *)

(** The stored choice of every select box of the page, [None] for a box the
    user has not touched. *)
Record widgets : Type := {
  w_main_cat_col : option string;
  w_selected_cat : option string;
  w_x_col : option string;
  w_y_col : option string;
  w_scatter_x : option string;
  w_scatter_y : option string;
  w_color_col : option (option string);
  w_hist_col : option string;
  w_pie_col : option string
}.

(** [st.selectbox(label, options)] *)
Definition selectbox {A : Type} (eqb : A -> A -> bool) (options : list A)
    (choice : option A) : option A :=
  match choice with
  | Some c => if existsb (eqb c) options then Some c else hd_error options
  | None => hd_error options
  end.

Definition option_eqb (a b : option string) : bool :=
  match a, b with
  | Some x, Some y => x =? y
  | None, None => true
  | _, _ => false
  end.

Record scatter_plot : Type := {
  scatter_frame : table;
  scatter_x : string;
  scatter_y : string;
  scatter_color : option string;
  scatter_hover : list string
}.

Record histogram_plot : Type := {
  hist_frame : table;
  hist_x : string;
  hist_nbins : nat
}.

(** What one run of the script puts on the page. *)
Record dashboard : Type := {
  warning : bool;
  filter_options : option (list string);
  kpis : list (string * option Q);
  preview : table;
  bar : option (list (string * option Q));
  scatter : option scatter_plot;
  histogram : option histogram_plot;
  pie : option (list (string * nat));
  download : csv_file
}.

(** Line 11: the cached loader. *)
Definition load_data (file : csv_file) : result table := read_csv file.

(** Lines 22 and 23. *)
Definition numeric_cols (df : table) : list string :=
  columns (select_dtypes [dt_int64; dt_float64] df).

Definition categorical_cols (df : table) : list string :=
  columns (select_dtypes [dt_object] df).

(** Line 31. *)
Definition unique_vals (v : list (option string)) : list string :=
  "All" :: sorted (unique (dropna v)).

(** Lines 29 to 36: the filtered frame and the values offered by the second
    select box, or no select box and a warning. *)
Definition sidebar_filters (df : table) (categorical_cols : list string)
    (w : widgets) : result (table * option (list string)) :=
  if Nat.ltb 0 (List.length categorical_cols) then
    let main_cat_col := selectbox String.eqb categorical_cols (w_main_cat_col w) in
    s <- getitem df main_cat_col ;;
    v <- object_values s ;;
    let selected_cat := selectbox String.eqb (unique_vals v) (w_selected_cat w) in
    match selected_cat with
    | Some c =>
        if negb (c =? "All")
        then Ok (boolean_index df (eq_value v c), Some (unique_vals v))
        else Ok (df, Some (unique_vals v))
    | None => Ok (boolean_index df (map (fun _ => false) v), Some (unique_vals v))
    end
  else Ok (df, None).

(** [enumerate] *)
Definition enumerate {A : Type} (l : list A) : list (nat * A) :=
  combine (seq 0 (List.length l)) l.

(** Lines 40 to 42: one metric per column of [numeric_cols[:4]], put in the
    container of its rank among the four of [st.columns(4)].  The metric
    holds the mean; the text with two decimals is its formatting. *)
Definition kpi_section (df : table) (numeric_cols : list string)
    : result (list (string * option Q)) :=
  mapM (fun ic =>
          _ <- (if Nat.ltb (fst ic) 4 then Ok tt else Raise IndexError) ;;
          s <- getitem df (Some (snd ic)) ;;
          m <- mean s ;;
          Ok (snd ic, m))
       (enumerate (firstn 4 numeric_cols)).

(** Lines 51 to 66. *)
Definition bar_chart (df : table) (numeric_cols categorical_cols : list string)
    (w : widgets) : result (option (list (string * option Q))) :=
  if Nat.ltb 0 (List.length categorical_cols) && Nat.ltb 0 (List.length numeric_cols) then
    let x_col := selectbox String.eqb categorical_cols (w_x_col w) in
    let y_col := selectbox String.eqb numeric_cols (w_y_col w) in
    sx <- getitem df x_col ;;
    keys <- object_values sx ;;
    sy <- getitem df y_col ;;
    vals <- float_values sy ;;
    let bar_data := head 15 (sort_values_desc (groupby_mean keys vals)) in
    Ok (Some bar_data)
  else Ok None.

(** Lines 69 to 84; Plotly looks up the columns it is given. *)
Definition scatter_chart (df : table) (numeric_cols categorical_cols : list string)
    (w : widgets) : result (option scatter_plot) :=
  if Nat.leb 2 (List.length numeric_cols) then
    match selectbox String.eqb numeric_cols (w_scatter_x w),
          selectbox String.eqb numeric_cols (w_scatter_y w),
          selectbox option_eqb (None :: map Some categorical_cols) (w_color_col w) with
    | Some x, Some y, Some color_col =>
        _ <- getitem df (Some x) ;;
        _ <- getitem df (Some y) ;;
        _ <- match color_col with
             | Some c => getitem df (Some c)
             | None => Ok (ObjectSeries [])
             end ;;
        Ok (Some {| scatter_frame := df; scatter_x := x; scatter_y := y;
                    scatter_color := color_col; scatter_hover := columns df |})
    | _, _, _ => Raise (KeyError None)
    end
  else Ok None.

(** Lines 87 to 92. *)
Definition histogram_chart (df : table) (numeric_cols : list string) (w : widgets)
    : result (option histogram_plot) :=
  if Nat.ltb 0 (List.length numeric_cols) then
    match selectbox String.eqb numeric_cols (w_hist_col w) with
    | Some hist_col =>
        _ <- getitem df (Some hist_col) ;;
        Ok (Some {| hist_frame := df; hist_x := hist_col; hist_nbins := 25 |})
    | None => Raise (KeyError None)
    end
  else Ok None.

(** Lines 95 to 105. *)
Definition pie_chart (df : table) (categorical_cols : list string) (w : widgets)
    : result (option (list (string * nat))) :=
  if Nat.ltb 0 (List.length categorical_cols) then
    let pie_col := selectbox String.eqb categorical_cols (w_pie_col w) in
    s <- getitem df pie_col ;;
    v <- object_values s ;;
    let pie_data := head 10 (value_counts v) in
    Ok (Some pie_data)
  else Ok None.

(** Lines 21 to 111, from the loaded table [df]. *)
Definition script (df : table) (w : widgets) : result dashboard :=
  let numeric_cols := numeric_cols df in
  let categorical_cols := categorical_cols df in
  f <- sidebar_filters df categorical_cols w ;;
  let df := fst f in
  k <- kpi_section df numeric_cols ;;
  b <- bar_chart df numeric_cols categorical_cols w ;;
  s <- scatter_chart df numeric_cols categorical_cols w ;;
  h <- histogram_chart df numeric_cols w ;;
  p <- pie_chart df categorical_cols w ;;
  let csv := to_csv df in
  Ok {| warning := match snd f with None => true | Some _ => false end;
        filter_options := snd f;
        kpis := k;
        preview := df;
        bar := b;
        scatter := s;
        histogram := h;
        pie := p;
        download := csv |}.

(** One run of the page: line 14, then the script on the loaded table. *)
Definition run (file : csv_file) (w : widgets) : result dashboard :=
  df <- load_data file ;;
  script df w.

(** The names and dtypes of a table, which row selection leaves alone. *)
Definition schema (df : table) : list (string * dtype) :=
  map (fun c => (fst c, dtype_of (snd c))) df.





(** Two states of the widgets with the same choices in the chart panels. *)
Definition same_chart_choices (w w' : widgets) : Prop :=
  w_x_col w = w_x_col w' /\ w_y_col w = w_y_col w' /\
  w_scatter_x w = w_scatter_x w' /\ w_scatter_y w = w_scatter_y w' /\
  w_color_col w = w_color_col w' /\ w_hist_col w = w_hist_col w' /\
  w_pie_col w = w_pie_col w'.

(** ** Sample data *)

Definition no_choice : widgets :=
  {| w_main_cat_col := None; w_selected_cat := None; w_x_col := None;
     w_y_col := None; w_scatter_x := None; w_scatter_y := None;
     w_color_col := None; w_hist_col := None; w_pie_col := None |}.

(** The user picks [value] in the second select box of the sidebar. *)
Definition pick (value : string) : widgets :=
  {| w_main_cat_col := None; w_selected_cat := Some value; w_x_col := None;
     w_y_col := None; w_scatter_x := None; w_scatter_y := None;
     w_color_col := None; w_hist_col := None; w_pie_col := None |}.

(** The user picks [col] in the first select box and [value] in the
    second. *)
Definition pick_in (col value : string) : widgets :=
  {| w_main_cat_col := Some col; w_selected_cat := Some value; w_x_col := None;
     w_y_col := None; w_scatter_x := None; w_scatter_y := None;
     w_color_col := None; w_hist_col := None; w_pie_col := None |}.

Definition cars_file : csv_file :=
  {| header := ["Manufacturer"; "Price"];
     records := [["Honda"; "20000"]; ["Honda"; "22000"]; ["Toyota"; "18000"]] |}.

Definition cars : table :=
  [("Manufacturer", ObjectSeries [Some "Honda"; Some "Honda"; Some "Toyota"]);
   ("Price", IntSeries [20000; 22000; 18000]%Z)].

Definition sold_file : csv_file :=
  {| header := ["Model"; "Sold"];
     records := [["Civic"; "True"]; ["Corolla"; "False"]] |}.

Definition sold : table :=
  [("Model", ObjectSeries [Some "Civic"; Some "Corolla"]);
   ("Sold", BoolSeries [true; false])].

(** The two Hondas of the three cars. *)
Definition hondas : table :=
  [("Manufacturer", ObjectSeries [Some "Honda"; Some "Honda"]);
   ("Price", IntSeries [20000; 22000]%Z)].

(** A frame with typed columns and no row. *)
Definition no_cars : table :=
  [("Manufacturer", ObjectSeries []); ("Price", IntSeries [])].


(** A file with its header alone, and a file with a record of three fields
    under a header of two. *)
Definition header_only_file : csv_file :=
  {| header := ["Manufacturer"; "Price"]; records := [] |}.


Definition drive_file : csv_file :=
  {| header := ["Drive"; "Model"];
     records := [["Front"; "Civic"]; ["All"; "Outback"]] |}.

Definition drive : table :=
  [("Drive", ObjectSeries [Some "Front"; Some "All"]);
   ("Model", ObjectSeries [Some "Civic"; Some "Outback"])].

(** * Properties *)

(** ** Columns and dtypes *)

Lemma columns_schema (df : table) : columns df = map fst (schema df).
Proof.
  unfold columns, schema. rewrite map_map. reflexivity.
Qed.

Lemma select_dtypes_schema (include : list dtype) (df : table) :
  columns (select_dtypes include df)
  = map fst (filter (fun c => existsb (dtype_eqb (snd c)) include) (schema df)).
Proof.
  unfold columns, select_dtypes, schema.
  induction df as [| c df IH]; simpl; [reflexivity |].
  destruct (existsb (dtype_eqb (dtype_of (snd c))) include); simpl; now rewrite IH.
Qed.

Lemma series_mask_dtype (mask : list bool) (s : series) :
  dtype_of (series_mask mask s) = dtype_of s.
Proof. destruct s; reflexivity. Qed.

Lemma boolean_index_schema (df : table) (mask : list bool) :
  schema (boolean_index df mask) = schema df.
Proof.
  unfold schema, boolean_index. rewrite map_map.
  apply map_ext. intros c. simpl. now rewrite series_mask_dtype.
Qed.

Lemma boolean_index_columns (df : table) (mask : list bool) :
  columns (boolean_index df mask) = columns df.
Proof. now rewrite !columns_schema, boolean_index_schema. Qed.

Lemma in_select_dtypes (include : list dtype) (df : table) (c : string) :
  In c (columns (select_dtypes include df)) <->
  exists s, In (c, s) df /\ existsb (dtype_eqb (dtype_of s)) include = true.
Proof.
  unfold columns, select_dtypes. rewrite in_map_iff. split.
  - intros ([c' s] & Hc & Hin). simpl in Hc. subst c'.
    apply filter_In in Hin. destruct Hin as [Hin Hd].
    exists s. split; assumption.
  - intros (s & Hin & Hd). exists (c, s). split; [reflexivity |].
    apply filter_In. split; assumption.
Qed.

Lemma getitem_In (df : table) (c : string) (s : series) :
  NoDup (columns df) -> In (c, s) df -> getitem df (Some c) = Ok s.
Proof.
  unfold getitem, columns.
  induction df as [| [c' s'] df IH]; simpl; intros Hnd Hin; [contradiction |].
  inversion Hnd as [| ? ? Hnotin Hnd']; subst.
  destruct (String.eqb_spec c' c) as [-> | Hne].
  - destruct Hin as [Heq | Hin]; [now inversion Heq |].
    exfalso. apply Hnotin. apply in_map_iff. exists (c, s). split; [reflexivity | assumption].
  - destruct Hin as [Heq | Hin]; [inversion Heq; contradiction |].
    apply IH; assumption.
Qed.

Lemma getitem_Ok_In (df : table) (k : option string) (s : series) :
  getitem df k = Ok s -> exists c, k = Some c /\ In (c, s) df.
Proof.
  unfold getitem. destruct k as [c |]; [| discriminate].
  destruct (find (fun p => fst p =? c) df) as [[c' s'] |] eqn:Hf; [| discriminate].
  intros H. inversion H; subst. apply find_some in Hf. destruct Hf as [Hin Heq].
  simpl in Heq. apply String.eqb_eq in Heq. subst. exists c. split; [reflexivity | assumption].
Qed.

(** A disjoint pair of selections of a table with distinct names shares no
    name. *)
Lemma NoDup_two_filters (p q : string * series -> bool) (df : table) :
  (forall c, p c = true -> q c = false) ->
  NoDup (map fst df) ->
  NoDup (map fst (filter p df) ++ map fst (filter q df)).
Proof.
  intros Hpq. induction df as [| c df IH]; simpl; intros Hnd; [constructor |].
  inversion Hnd as [| ? ? Hnotin Hnd']; subst.
  assert (Hsub : forall x, In x (map fst (filter p df) ++ map fst (filter q df))
                           -> In x (map fst df)).
  { intros x Hx. apply in_app_or in Hx.
    destruct Hx as [Hx | Hx]; apply in_map_iff in Hx;
      destruct Hx as (y & Hy & Hin); apply filter_In in Hin;
      apply in_map_iff; exists y; tauto. }
  destruct (p c) eqn:Hp.
  - rewrite (Hpq c Hp). simpl. constructor; [| apply IH; assumption].
    intros Hin. apply Hnotin, Hsub, Hin.
  - destruct (q c); simpl; [| apply IH; assumption].
    apply NoDup_Add with (a := fst c) (l := (map fst (filter p df) ++ map fst (filter q df))%list).
    + apply Add_app.
    + split; [apply IH; assumption |].
      intros Hin. apply Hnotin, Hsub, Hin.
Qed.

(** ** The column classifier *)

(** C1, as the code has it: on a table with distinct column names the two
    lists share no name and repeat none, and together they hold exactly the
    columns whose dtype is int64, float64 or object; a bool column is in
    neither list. *)
Theorem classifier_partition (df : table) :
  NoDup (columns df) ->
  NoDup (numeric_cols df ++ categorical_cols df) /\
  forall c, In c (numeric_cols df ++ categorical_cols df) <->
            exists s, In (c, s) df /\ dtype_of s <> dt_bool.
Proof.
  intros Hnd. split.
  - unfold numeric_cols, categorical_cols, columns, select_dtypes.
    apply NoDup_two_filters; [| exact Hnd].
    intros [c s]. simpl. destruct (dtype_of s); simpl; intros H; try reflexivity; discriminate H.
  - intros c. rewrite in_app_iff. unfold numeric_cols, categorical_cols.
    rewrite !in_select_dtypes. split.
    + intros [(s & Hin & Hd) | (s & Hin & Hd)]; exists s; split; try assumption;
        intros Hb; rewrite Hb in Hd; discriminate Hd.
    + intros (s & Hin & Hd). destruct (dtype_of s) eqn:Hs.
      * left. exists s. rewrite Hs. split; [assumption | reflexivity].
      * left. exists s. rewrite Hs. split; [assumption | reflexivity].
      * right. exists s. rewrite Hs. split; [assumption | reflexivity].
      * contradiction.
Qed.

Lemma classifier_partition_witness :
  NoDup (columns cars) /\
  NoDup (numeric_cols cars ++ categorical_cols cars) /\
  forall c, In c (numeric_cols cars ++ categorical_cols cars) <->
            exists s, In (c, s) cars /\ dtype_of s <> dt_bool.
Proof.
  assert (Hnd : NoDup (columns cars))
    by (repeat constructor; simpl; intuition discriminate).
  split; [exact Hnd | exact (classifier_partition cars Hnd)].
Defined.

(** C1 as stated fails: the column [Sold] of a file of booleans is loaded
    with dtype bool, and is in neither list. *)
Lemma classifier_misses_bool :
  load_data sold_file = Ok sold /\
  NoDup (columns sold) /\
  In "Sold" (columns sold) /\
  ~ In "Sold" (numeric_cols sold ++ categorical_cols sold).
Proof.
  split; [reflexivity |]. split.
  - repeat constructor; simpl; intuition discriminate.
  - split; [simpl; auto |]. simpl. intuition discriminate.
Qed.

(** ** Sorting *)

Section SortingFacts.
Context {A : Type} (le : A -> A -> bool).

Lemma insert_perm (x : A) (l : list A) : Permutation (insert le x l) (x :: l).
Proof.
  induction l as [| y l IH]; simpl; [apply Permutation_refl |].
  destruct (le x y); [apply Permutation_refl |].
  eapply perm_trans; [apply perm_skip, IH | apply perm_swap].
Qed.

Lemma sort_by_perm (l : list A) : Permutation (sort_by le l) l.
Proof.
  induction l as [| x l IH]; simpl; [constructor |].
  eapply perm_trans; [apply insert_perm | apply perm_skip, IH].
Qed.

Lemma sort_by_In (x : A) (l : list A) : In x (sort_by le l) <-> In x l.
Proof.
  split; apply Permutation_in; [| apply Permutation_sym]; apply sort_by_perm.
Qed.

Hypothesis le_total : forall x y, le x y = false -> le y x = true.
Hypothesis le_trans : forall x y z, le x y = true -> le y z = true -> le x z = true.

Let ordered (a b : A) : Prop := le a b = true.

Lemma insert_sorted (x : A) (l : list A) :
  StronglySorted ordered l -> StronglySorted ordered (insert le x l).
Proof.
  induction l as [| y l IH]; simpl; intros Hs.
  - constructor; constructor.
  - inversion Hs as [| ? ? Hs' Hall]; subst.
    destruct (le x y) eqn:Hxy.
    + constructor; [exact Hs |]. constructor; [exact Hxy |].
      eapply Forall_impl; [| exact Hall].
      intros z Hz. unfold ordered in *. eapply le_trans; eassumption.
    + constructor; [apply IH, Hs' |].
      apply (Permutation_Forall (Permutation_sym (insert_perm x l))).
      constructor; [apply le_total, Hxy | exact Hall].
Qed.

Lemma sort_by_sorted (l : list A) : StronglySorted ordered (sort_by le l).
Proof.
  induction l as [| x l IH]; simpl; [constructor | apply insert_sorted, IH].
Qed.
End SortingFacts.

Lemma leb_ltb_or_eq (a b : string) : String.leb a b = true -> a <> b -> String.ltb a b = true.
Proof.
  unfold String.leb, String.ltb. intros Hle Hne.
  destruct (String.compare a b) eqn:Hc; try reflexivity; try discriminate.
  exfalso. apply Hne. apply String.compare_eq_iff, Hc.
Qed.

Lemma string_leb_total (x y : string) : String.leb x y = false -> String.leb y x = true.
Proof.
  intros H. destruct (String.leb_total x y) as [Hxy | Hyx]; [congruence | exact Hyx].
Qed.

Lemma string_leb_trans (x y z : string) :
  String.leb x y = true -> String.leb y z = true -> String.leb x z = true.
Proof.
  unfold String.leb. intros Hxy Hyz.
  destruct (String.compare x y) eqn:Hc1; try discriminate.
  - apply String.compare_eq_iff in Hc1. subst. exact Hyz.
  - destruct (String.compare y z) eqn:Hc2; try discriminate.
    + apply String.compare_eq_iff in Hc2. subst. now rewrite Hc1.
    + assert (Hlt : String.compare x z = Lt).
      { apply String_as_OT.cmp_lt.
        eapply String_as_OT.lt_trans; apply String_as_OT.cmp_lt; eassumption. }
      now rewrite Hlt.
Qed.

Lemma sorted_ascending (l : list string) :
  StronglySorted (fun a b => String.leb a b = true) (sorted l).
Proof.
  apply sort_by_sorted; [apply string_leb_total | apply string_leb_trans].
Qed.

Lemma strictly_ascending (l : list string) :
  NoDup l ->
  StronglySorted (fun a b => String.leb a b = true) l ->
  StronglySorted (fun a b => String.ltb a b = true) l.
Proof.
  induction l as [| a l IH]; intros Hnd Hs; [constructor |].
  inversion Hnd as [| ? ? Hnotin Hnd']; subst.
  inversion Hs as [| ? ? Hs' Hall]; subst.
  constructor; [apply IH; assumption |].
  rewrite Forall_forall in *. intros b Hb.
  apply leb_ltb_or_eq; [apply Hall, Hb |].
  intros ->. contradiction.
Qed.

(** ** Values of a column *)

Lemma in_dropna {A : Type} (a : A) (l : list (option A)) :
  In a (dropna l) <-> In (Some a) l.
Proof.
  induction l as [| [b |] l IH]; simpl.
  - tauto.
  - rewrite IH. split; intros [H | H]; auto; left; congruence.
  - rewrite IH. split; [auto | intros [H | H]; [discriminate | exact H]].
Qed.

Lemma in_unique (a : string) (l : list string) : In a (unique l) <-> In a l.
Proof.
  induction l as [| b l IH]; simpl; [tauto |].
  rewrite filter_In, IH. split.
  - intros [H | [H _]]; auto.
  - intros [H | H]; [auto |].
    destruct (String.eqb_spec a b) as [-> | Hne]; [auto | right; auto].
Qed.

Lemma NoDup_unique (l : list string) : NoDup (unique l).
Proof.
  induction l as [| b l IH]; simpl; constructor.
  - rewrite filter_In. intros [_ H]. now rewrite String.eqb_refl in H.
  - apply NoDup_filter, IH.
Qed.

(** ** Select boxes *)

Lemma selectbox_In {A : Type} (eqb : A -> A -> bool) (options : list A)
    (choice : option A) (x : A) :
  (forall a b, eqb a b = true -> a = b) ->
  selectbox eqb options choice = Some x -> In x options.
Proof.
  intros Heqb. unfold selectbox.
  assert (Hhd : hd_error options = Some x -> In x options).
  { destruct options; simpl; intros H; [discriminate | inversion H; auto]. }
  destruct choice as [c |]; [| exact Hhd].
  destruct (existsb (eqb c) options) eqn:Hex; [| exact Hhd].
  intros H. inversion H; subst.
  apply existsb_exists in Hex. destruct Hex as (y & Hy & Hcy).
  apply Heqb in Hcy. now subst.
Qed.

Lemma selectbox_Some {A : Type} (eqb : A -> A -> bool) (options : list A)
    (choice : option A) :
  options <> [] -> exists x, selectbox eqb options choice = Some x.
Proof.
  intros Hne. unfold selectbox.
  assert (Hhd : exists x, hd_error options = Some x).
  { destruct options as [| a l]; [contradiction | exists a; reflexivity]. }
  destruct choice as [c |]; [| exact Hhd].
  destruct (existsb (eqb c) options); [exists c; reflexivity | exact Hhd].
Qed.

Lemma selectbox_choice (options : list string) (c : string) :
  In c options -> selectbox String.eqb options (Some c) = Some c.
Proof.
  intros Hin. unfold selectbox.
  replace (existsb (String.eqb c) options) with true; [reflexivity |].
  symmetry. apply existsb_exists. exists c. split; [exact Hin | apply String.eqb_refl].
Qed.

Lemma string_eqb_true (a b : string) : (a =? b) = true -> a = b.
Proof. apply String.eqb_eq. Qed.

Lemma option_eqb_true (a b : option string) : option_eqb a b = true -> a = b.
Proof.
  destruct a, b; simpl; intros H; try discriminate; try reflexivity.
  apply String.eqb_eq in H. now subst.
Qed.

Lemma length_pos_nonempty {A : Type} (l : list A) :
  Nat.ltb 0 (List.length l) = true <-> l <> [].
Proof.
  destruct l; simpl; split; intros H;
    try reflexivity; try discriminate; try (now contradiction H).
Qed.

(** ** Columns of the filtered frame *)

Lemma numeric_cols_schema (df base : table) :
  schema df = schema base -> numeric_cols df = numeric_cols base.
Proof.
  intros H. unfold numeric_cols. now rewrite !select_dtypes_schema, H.
Qed.

Lemma categorical_cols_schema (df base : table) :
  schema df = schema base -> categorical_cols df = categorical_cols base.
Proof.
  intros H. unfold categorical_cols. now rewrite !select_dtypes_schema, H.
Qed.

Lemma columns_same_schema (df base : table) :
  schema df = schema base -> columns df = columns base.
Proof. intros H. now rewrite !columns_schema, H. Qed.

Lemma getitem_categorical (df : table) (c : string) :
  NoDup (columns df) -> In c (categorical_cols df) ->
  exists v, getitem df (Some c) = Ok (ObjectSeries v).
Proof.
  intros Hnd Hin. apply in_select_dtypes in Hin. destruct Hin as (s & Hin & Hd).
  destruct s; simpl in Hd; try discriminate.
  exists v. apply getitem_In; assumption.
Qed.

Lemma getitem_numeric (df : table) (c : string) :
  NoDup (columns df) -> In c (numeric_cols df) ->
  exists s v, getitem df (Some c) = Ok s /\ float_values s = Ok v.
Proof.
  intros Hnd Hin. apply in_select_dtypes in Hin. destruct Hin as (s & Hin & Hd).
  exists s. destruct s; simpl in Hd; try discriminate; eexists;
    (split; [apply getitem_In; eassumption | reflexivity]).
Qed.

Lemma getitem_categorical_in (df base : table) (c : string) :
  schema df = schema base -> NoDup (columns base) -> In c (categorical_cols base) ->
  exists v, getitem df (Some c) = Ok (ObjectSeries v).
Proof.
  intros Hs Hnd Hin. apply getitem_categorical.
  - now rewrite (columns_same_schema _ _ Hs).
  - now rewrite (categorical_cols_schema _ _ Hs).
Qed.

Lemma getitem_numeric_in (df base : table) (c : string) :
  schema df = schema base -> NoDup (columns base) -> In c (numeric_cols base) ->
  exists s v, getitem df (Some c) = Ok s /\ float_values s = Ok v.
Proof.
  intros Hs Hnd Hin. apply getitem_numeric.
  - now rewrite (columns_same_schema _ _ Hs).
  - now rewrite (numeric_cols_schema _ _ Hs).
Qed.

(** ** The sidebar *)

(** What the sidebar does, case by case: no categorical column, a warning
    and the table as it is; otherwise the column and the value the two
    select boxes return, and the rows of the table with that value, or all
    rows for ["All"]. *)
Lemma sidebar_filters_spec (base : table) (w : widgets) :
  NoDup (columns base) ->
  (categorical_cols base = [] /\
   sidebar_filters base (categorical_cols base) w = Ok (base, None)) \/
  (exists col v sel,
     selectbox String.eqb (categorical_cols base) (w_main_cat_col w) = Some col /\
     In col (categorical_cols base) /\
     getitem base (Some col) = Ok (ObjectSeries v) /\
     selectbox String.eqb (unique_vals v) (w_selected_cat w) = Some sel /\
     In sel (unique_vals v) /\
     sidebar_filters base (categorical_cols base) w
     = Ok (if negb (sel =? "All") then boolean_index base (eq_value v sel) else base,
           Some (unique_vals v))).
Proof.
  intros Hnd. unfold sidebar_filters.
  destruct (Nat.ltb 0 (List.length (categorical_cols base))) eqn:Hlen.
  - right. apply length_pos_nonempty in Hlen.
    destruct (selectbox_Some String.eqb _ (w_main_cat_col w) Hlen) as (col & Hcol).
    pose proof (selectbox_In _ _ _ _ string_eqb_true Hcol) as Hin.
    destruct (getitem_categorical base col Hnd Hin) as (v & Hv).
    assert (Hne : unique_vals v <> []) by (unfold unique_vals; discriminate).
    destruct (selectbox_Some String.eqb _ (w_selected_cat w) Hne) as (sel & Hsel).
    pose proof (selectbox_In _ _ _ _ string_eqb_true Hsel) as Hinsel.
    exists col, v, sel. rewrite Hcol, Hv. simpl. rewrite Hsel.
    repeat split; try assumption; try reflexivity.
    destruct (negb (sel =? "All")); reflexivity.
  - left. destruct (categorical_cols base); [split; reflexivity | discriminate Hlen].
Qed.

Lemma sidebar_filters_schema (base : table) (w : widgets) (df : table)
    (o : option (list string)) :
  NoDup (columns base) ->
  sidebar_filters base (categorical_cols base) w = Ok (df, o) ->
  schema df = schema base.
Proof.
  intros Hnd H.
  destruct (sidebar_filters_spec base w Hnd)
    as [[_ Hs] | (col & v & sel & _ & _ & _ & _ & _ & Hs)];
    rewrite Hs in H; inversion H; subst; [reflexivity |].
  destruct (negb (sel =? "All")); [apply boolean_index_schema | reflexivity].
Qed.

(** ** The sections of the page *)

Lemma in_head {A : Type} (n : nat) (l : list A) (x : A) : In x (head n l) -> In x l.
Proof.
  unfold head. intros H. rewrite <- (firstn_skipn n l). apply in_or_app. now left.
Qed.

Lemma head_length {A : Type} (n : nat) (l : list A) : List.length (head n l) <= n.
Proof. apply firstn_le_length. Qed.

Section Sections.
Variables (base df : table) (w : widgets).
Hypothesis Hschema : schema df = schema base.
Hypothesis Hnodup : NoDup (columns base).

Let num := numeric_cols base.
Let cat := categorical_cols base.

(** The loop of the KPI section from rank [a] on. *)
Lemma kpi_loop (l : list string) (a : nat) :
  a + List.length l <= 4 ->
  (forall c, In c l -> In c num) ->
  exists k,
    mapM (fun ic =>
            _ <- (if Nat.ltb (fst ic) 4 then Ok tt else Raise IndexError) ;;
            s <- getitem df (Some (snd ic)) ;;
            m <- mean s ;;
            Ok (snd ic, m))
         (combine (seq a (List.length l)) l) = Ok k /\
    map fst k = l /\
    Forall (fun cm => exists s, getitem df (Some (fst cm)) = Ok s /\ mean s = Ok (snd cm)) k.
Proof.
  revert a. induction l as [| c l IH]; intros a Hlen Hin.
  - exists []. repeat split; constructor.
  - simpl in Hlen.
    destruct (IH (S a)) as (k & Hk & Hfst & Hall);
      [lia | intros c' Hc'; apply Hin; right; exact Hc' |].
    destruct (getitem_numeric_in df base c Hschema Hnodup (Hin c (or_introl eq_refl)))
      as (s & v & Hs & Hv).
    assert (Ha : Nat.ltb a 4 = true) by (apply Nat.ltb_lt; lia).
    exists ((c, nanmean v) :: k). split.
    { cbn [List.length seq combine mapM fst snd]. rewrite Ha. cbn [bind].
      rewrite Hs. cbn [bind]. unfold mean at 1. rewrite Hv. cbn [bind].
      rewrite Hk. reflexivity. }
    split.
    + simpl. now rewrite Hfst.
    + constructor; [| exact Hall]. exists s. simpl. split; [exact Hs |].
      unfold mean. now rewrite Hv.
Qed.

Lemma kpi_section_spec :
  exists k,
    kpi_section df num = Ok k /\
    map fst k = firstn 4 num /\
    Forall (fun cm => exists s, getitem df (Some (fst cm)) = Ok s /\ mean s = Ok (snd cm)) k.
Proof.
  unfold kpi_section, enumerate. apply kpi_loop.
  - rewrite length_firstn. lia.
  - intros c Hc. eapply in_head; eassumption.
Qed.

Lemma bar_chart_spec :
  ((cat = [] \/ num = []) /\ bar_chart df num cat w = Ok None) \/
  (cat <> [] /\ num <> [] /\
   exists x y keys sy vals,
     selectbox String.eqb cat (w_x_col w) = Some x /\
     selectbox String.eqb num (w_y_col w) = Some y /\
     getitem df (Some x) = Ok (ObjectSeries keys) /\
     getitem df (Some y) = Ok sy /\
     float_values sy = Ok vals /\
     bar_chart df num cat w
     = Ok (Some (head 15 (sort_values_desc (groupby_mean keys vals))))).
Proof.
  unfold bar_chart.
  destruct (Nat.ltb 0 (List.length cat)) eqn:Hc; cbn [andb].
  - destruct (Nat.ltb 0 (List.length num)) eqn:Hn.
    + right. apply length_pos_nonempty in Hc, Hn.
      destruct (selectbox_Some String.eqb _ (w_x_col w) Hc) as (x & Hx).
      destruct (selectbox_Some String.eqb _ (w_y_col w) Hn) as (y & Hy).
      pose proof (selectbox_In _ _ _ _ string_eqb_true Hx) as Hinx.
      pose proof (selectbox_In _ _ _ _ string_eqb_true Hy) as Hiny.
      destruct (getitem_categorical_in df base x Hschema Hnodup Hinx) as (keys & Hk).
      destruct (getitem_numeric_in df base y Hschema Hnodup Hiny) as (sy & vals & Hs & Hv).
      split; [exact Hc |]. split; [exact Hn |].
      exists x, y, keys, sy, vals. rewrite Hx, Hy, Hk. cbn [bind object_values].
      rewrite Hs. cbn [bind]. rewrite Hv. repeat split; reflexivity.
    + left. split; [| reflexivity]. right.
      destruct num; [reflexivity | discriminate Hn].
  - left. split; [| reflexivity]. left.
    destruct cat; [reflexivity | discriminate Hc].
Qed.

Lemma scatter_chart_spec :
  (List.length num < 2 /\ scatter_chart df num cat w = Ok None) \/
  (2 <= List.length num /\
   exists x y color,
     selectbox String.eqb num (w_scatter_x w) = Some x /\
     selectbox String.eqb num (w_scatter_y w) = Some y /\
     selectbox option_eqb (None :: map Some cat) (w_color_col w) = Some color /\
     scatter_chart df num cat w
     = Ok (Some {| scatter_frame := df; scatter_x := x; scatter_y := y;
                   scatter_color := color; scatter_hover := columns df |})).
Proof.
  unfold scatter_chart.
  destruct (Nat.leb 2 (List.length num)) eqn:Hn.
  - right. apply Nat.leb_le in Hn. split; [exact Hn |].
    assert (Hne : num <> []) by (intros E; rewrite E in Hn; simpl in Hn; lia).
    destruct (selectbox_Some String.eqb _ (w_scatter_x w) Hne) as (x & Hx).
    destruct (selectbox_Some String.eqb _ (w_scatter_y w) Hne) as (y & Hy).
    assert (Hne' : None :: map Some cat <> []) by discriminate.
    destruct (selectbox_Some option_eqb _ (w_color_col w) Hne') as (color & Hcol).
    pose proof (selectbox_In _ _ _ _ string_eqb_true Hx) as Hinx.
    pose proof (selectbox_In _ _ _ _ string_eqb_true Hy) as Hiny.
    pose proof (selectbox_In _ _ _ _ option_eqb_true Hcol) as Hinc.
    destruct (getitem_numeric_in df base x Hschema Hnodup Hinx) as (sx & ? & Hsx & _).
    destruct (getitem_numeric_in df base y Hschema Hnodup Hiny) as (sy & ? & Hsy & _).
    exists x, y, color. rewrite Hx, Hy, Hcol, Hsx, Hsy. cbn [bind].
    repeat split; try reflexivity.
    destruct color as [c |]; [| reflexivity].
    destruct Hinc as [Hc | Hc]; [discriminate |].
    apply in_map_iff in Hc. destruct Hc as (c' & Hc' & Hc). inversion Hc'; subst.
    destruct (getitem_categorical_in df base c Hschema Hnodup Hc) as (v & Hv).
    rewrite Hv. reflexivity.
  - left. apply Nat.leb_gt in Hn. split; [exact Hn | reflexivity].
Qed.

Lemma histogram_chart_spec :
  (num = [] /\ histogram_chart df num w = Ok None) \/
  (num <> [] /\
   exists x,
     selectbox String.eqb num (w_hist_col w) = Some x /\
     histogram_chart df num w
     = Ok (Some {| hist_frame := df; hist_x := x; hist_nbins := 25 |})).
Proof.
  unfold histogram_chart.
  destruct (Nat.ltb 0 (List.length num)) eqn:Hn.
  - right. apply length_pos_nonempty in Hn. split; [exact Hn |].
    destruct (selectbox_Some String.eqb _ (w_hist_col w) Hn) as (x & Hx).
    pose proof (selectbox_In _ _ _ _ string_eqb_true Hx) as Hinx.
    destruct (getitem_numeric_in df base x Hschema Hnodup Hinx) as (sx & ? & Hsx & _).
    exists x. rewrite Hx, Hsx. split; reflexivity.
  - left. split; [| reflexivity]. destruct num; [reflexivity | discriminate Hn].
Qed.

Lemma pie_chart_spec :
  (cat = [] /\ pie_chart df cat w = Ok None) \/
  (cat <> [] /\
   exists x v,
     selectbox String.eqb cat (w_pie_col w) = Some x /\
     getitem df (Some x) = Ok (ObjectSeries v) /\
     pie_chart df cat w = Ok (Some (head 10 (value_counts v)))).
Proof.
  unfold pie_chart.
  destruct (Nat.ltb 0 (List.length cat)) eqn:Hc.
  - right. apply length_pos_nonempty in Hc. split; [exact Hc |].
    destruct (selectbox_Some String.eqb _ (w_pie_col w) Hc) as (x & Hx).
    pose proof (selectbox_In _ _ _ _ string_eqb_true Hx) as Hinx.
    destruct (getitem_categorical_in df base x Hschema Hnodup Hinx) as (v & Hv).
    exists x, v. rewrite Hx, Hv. repeat split; reflexivity.
  - left. split; [| reflexivity]. destruct cat; [reflexivity | discriminate Hc].
Qed.
End Sections.

(** ** The whole script *)

(** On a table with distinct column names the script raises nothing, and
    its page is made of the results of its sections on the filtered frame. *)
Lemma script_spec (base : table) (w : widgets) :
  NoDup (columns base) ->
  exists df o k b s h p,
    sidebar_filters base (categorical_cols base) w = Ok (df, o) /\
    schema df = schema base /\
    kpi_section df (numeric_cols base) = Ok k /\
    bar_chart df (numeric_cols base) (categorical_cols base) w = Ok b /\
    scatter_chart df (numeric_cols base) (categorical_cols base) w = Ok s /\
    histogram_chart df (numeric_cols base) w = Ok h /\
    pie_chart df (categorical_cols base) w = Ok p /\
    script base w
    = Ok {| warning := match o with None => true | Some _ => false end;
            filter_options := o; kpis := k; preview := df; bar := b;
            scatter := s; histogram := h; pie := p; download := to_csv df |}.
Proof.
  intros Hnd.
  assert (Hf : exists df o, sidebar_filters base (categorical_cols base) w = Ok (df, o)).
  { destruct (sidebar_filters_spec base w Hnd)
      as [[_ Hs] | (col & v & sel & _ & _ & _ & _ & _ & Hs)];
      rewrite Hs; eauto. }
  destruct Hf as (df & o & Hf).
  pose proof (sidebar_filters_schema base w df o Hnd Hf) as Hs.
  destruct (kpi_section_spec base df Hs Hnd) as (k & Hk & _).
  assert (Hb : exists b, bar_chart df (numeric_cols base) (categorical_cols base) w = Ok b).
  { destruct (bar_chart_spec base df w Hs Hnd)
      as [[_ H] | (_ & _ & x & y & keys & sy & vals & _ & _ & _ & _ & _ & H)];
      rewrite H; eauto. }
  assert (Hsc : exists s, scatter_chart df (numeric_cols base) (categorical_cols base) w = Ok s).
  { destruct (scatter_chart_spec base df w Hs Hnd)
      as [[_ H] | (_ & x & y & color & _ & _ & _ & H)]; rewrite H; eauto. }
  assert (Hh : exists h, histogram_chart df (numeric_cols base) w = Ok h).
  { destruct (histogram_chart_spec base df w Hs Hnd)
      as [[_ H] | (_ & x & _ & H)]; rewrite H; eauto. }
  assert (Hp : exists p, pie_chart df (categorical_cols base) w = Ok p).
  { destruct (pie_chart_spec base df w Hs Hnd)
      as [[_ H] | (_ & x & v & _ & _ & H)]; rewrite H; eauto. }
  destruct Hb as (b & Hb). destruct Hsc as (s & Hsc).
  destruct Hh as (h & Hh). destruct Hp as (p & Hp).
  exists df, o, k, b, s, h, p. repeat (split; [assumption |]).
  unfold script. rewrite Hf. cbn [bind fst snd].
  rewrite Hk, Hb, Hsc, Hh, Hp. reflexivity.
Qed.

(** ** The filter and its sentinel *)

Lemma all_in_unique_vals (v : list (option string)) : In "All" (unique_vals v).
Proof. left. reflexivity. Qed.

(** C2: whatever value [v] of whatever categorical column [col] a first run
    filtered on, the run with the selection changed to ["All"] on the same
    column shows the base table again, with all its rows. *)
Theorem all_restores_table (base : table) (col v : string) (w1 w2 : widgets) :
  NoDup (columns base) ->
  In col (categorical_cols base) ->
  w_main_cat_col w1 = Some col -> w_selected_cat w1 = Some v ->
  w_main_cat_col w2 = Some col -> w_selected_cat w2 = Some "All" ->
  exists d1 d2,
    script base w1 = Ok d1 /\
    script base w2 = Ok d2 /\
    preview d2 = base /\
    nrows (preview d2) = nrows base.
Proof.
  intros Hnd Hcol Hm1 Hs1 Hm2 Hs2.
  destruct (script_spec base w1 Hnd) as (df1 & o1 & k1 & b1 & s1 & h1 & p1 & H1).
  destruct (script_spec base w2 Hnd)
    as (df2 & o2 & k2 & b2 & s2 & h2 & p2 & Hf2 & _ & _ & _ & _ & _ & _ & H2).
  do 2 eexists. split; [apply H1 |]. split; [exact H2 |].
  assert (Hdf : df2 = base); [| simpl; now rewrite Hdf].
  destruct (sidebar_filters_spec base w2 Hnd)
    as [[_ Hs] | (c & vals & sel & _ & _ & _ & Hsel & _ & Hs)];
    rewrite Hs in Hf2; inversion Hf2; subst; [reflexivity |].
  rewrite Hs2, (selectbox_choice _ _ (all_in_unique_vals vals)) in Hsel.
  inversion Hsel; subst. reflexivity.
Qed.

Lemma cars_columns_distinct : NoDup (columns cars).
Proof. repeat constructor; simpl; intuition discriminate. Qed.

Lemma all_restores_table_witness :
  NoDup (columns cars) /\
  In "Manufacturer" (categorical_cols cars) /\
  exists d1 d2,
    script cars (pick_in "Manufacturer" "Honda") = Ok d1 /\
    script cars (pick_in "Manufacturer" "All") = Ok d2 /\
    preview d2 = cars /\
    nrows (preview d2) = nrows cars.
Proof.
  assert (Hin : In "Manufacturer" (categorical_cols cars)) by (left; reflexivity).
  split; [exact cars_columns_distinct |]. split; [exact Hin |].
  exact (all_restores_table cars "Manufacturer" "Honda"
           (pick_in "Manufacturer" "Honda") (pick_in "Manufacturer" "All")
           cars_columns_distinct Hin eq_refl eq_refl eq_refl eq_refl).
Defined.

(** ** The KPI panel *)



(** The scenario of the specification: filtering the three cars on Honda
    leaves two rows, and the mean price shown is 21000. *)
Example honda_scenario :
  exists d,
    run cars_file (pick "Honda") = Ok d /\
    nrows (preview d) = 2 /\
    kpis d = [("Price", Some (21000 # 1)%Q)].
Proof. eexists. split; [reflexivity |]. split; reflexivity. Qed.

(** ** The guards of the chart panels *)




(** ** The values offered by the filter *)

(** C10, as the code has it: the second select box offers ["All"] first and
    then the values of the chosen column that are not NaN, each once, in
    strictly ascending order.  The whole list repeats no value exactly when
    ["All"] is not itself a value of the column. *)
Theorem filter_options_spec (base : table) (w : widgets) :
  NoDup (columns base) ->
  categorical_cols base <> [] ->
  exists d col v vals,
    script base w = Ok d /\
    selectbox String.eqb (categorical_cols base) (w_main_cat_col w) = Some col /\
    getitem base (Some col) = Ok (ObjectSeries v) /\
    filter_options d = Some ("All" :: vals) /\
    StronglySorted (fun a b => String.ltb a b = true) vals /\
    NoDup vals /\
    (forall x, In x vals <-> In (Some x) v) /\
    (NoDup ("All" :: vals) <-> ~ In (Some "All") v).
Proof.
  intros Hnd Hcat.
  destruct (script_spec base w Hnd)
    as (df & o & k & b & s & h & p & Hf & _ & _ & _ & _ & _ & _ & H).
  destruct (sidebar_filters_spec base w Hnd)
    as [[E _] | (col & v & sel & Hcol & _ & Hv & _ & _ & Hs)]; [contradiction |].
  rewrite Hs in Hf. inversion Hf; subst o.
  assert (Hnd' : NoDup (sorted (unique (dropna v)))).
  { eapply Permutation_NoDup; [apply Permutation_sym, sort_by_perm | apply NoDup_unique]. }
  assert (Hin : forall x, In x (sorted (unique (dropna v))) <-> In (Some x) v).
  { intros x. unfold sorted. now rewrite sort_by_In, in_unique, in_dropna. }
  eexists. exists col, v, (sorted (unique (dropna v))).
  split; [exact H |]. split; [exact Hcol |]. split; [exact Hv |].
  split; [reflexivity |].
  split; [apply strictly_ascending; [exact Hnd' | apply sorted_ascending] |].
  split; [exact Hnd' |]. split; [exact Hin |].
  rewrite <- Hin. split.
  - intros Hn. now inversion Hn.
  - intros Hn. constructor; assumption.
Qed.

Lemma filter_options_spec_witness :
  NoDup (columns cars) /\
  categorical_cols cars <> [] /\
  exists d col v vals,
    script cars no_choice = Ok d /\
    selectbox String.eqb (categorical_cols cars) (w_main_cat_col no_choice) = Some col /\
    getitem cars (Some col) = Ok (ObjectSeries v) /\
    filter_options d = Some ("All" :: vals) /\
    StronglySorted (fun a b => String.ltb a b = true) vals /\
    NoDup vals /\
    (forall x, In x vals <-> In (Some x) v) /\
    (NoDup ("All" :: vals) <-> ~ In (Some "All") v).
Proof.
  assert (Hcat : categorical_cols cars <> []) by discriminate.
  split; [exact cars_columns_distinct |]. split; [exact Hcat |].
  exact (filter_options_spec cars no_choice cars_columns_distinct Hcat).
Defined.

(** C10 as stated fails in its last part: a column that holds the value
    ["All"] makes the select box offer ["All"] twice. *)
Lemma all_offered_twice :
  load_data drive_file = Ok drive /\
  (d <- run drive_file no_choice ;; Ok (filter_options d))
  = Ok (Some ["All"; "All"; "Front"]) /\
  ~ NoDup ["All"; "All"; "Front"].
Proof.
  split; [reflexivity |]. split; [reflexivity |].
  intros H. inversion H as [| ? ? Hn _]. apply Hn. left. reflexivity.
Qed.

(** ** Aggregated series *)





Lemma StronglySorted_weaken {A : Type} (R R' : A -> A -> Prop) (l : list A) :
  (forall a b, R a b -> R' a b) -> StronglySorted R l -> StronglySorted R' l.
Proof.
  intros HR. induction 1 as [| a l Hs IH Hall]; constructor; [exact IH |].
  eapply Forall_impl; [apply HR | exact Hall].
Qed.







(** ** The bar chart *)



(** The bar chart of the three cars: Honda at 21000, then Toyota at 18000. *)
Example cars_bar_chart :
  (d <- run cars_file no_choice ;; Ok (bar d))
  = Ok (Some [("Honda", Some (21000 # 1)%Q); ("Toyota", Some (18000 # 1)%Q)]).
Proof. reflexivity. Qed.

(** ** The pie chart *)

Lemma list_sum_perm (l l' : list nat) : Permutation l l' -> list_sum l = list_sum l'.
Proof. induction 1; simpl; lia. Qed.

Lemma list_sum_firstn (n : nat) (l : list nat) : list_sum (firstn n l) <= list_sum l.
Proof.
  rewrite <- (firstn_skipn n l) at 2. rewrite list_sum_app. lia.
Qed.

Lemma indicator_sum (a : string) (gs : list string) :
  NoDup gs -> list_sum (map (fun g => if a =? g then 1 else 0) gs) <= 1.
Proof.
  induction 1 as [| g gs Hnotin Hnd IH]; simpl; [lia |].
  destruct (String.eqb_spec a g) as [-> | Hne]; [| lia].
  assert (Hz : list_sum (map (fun g0 => if g =? g0 then 1 else 0) gs) = 0); [| lia].
  clear IH Hnd. induction gs as [| g' gs IH]; simpl; [reflexivity |].
  destruct (String.eqb_spec g g') as [-> | Hne].
  - exfalso. apply Hnotin. now left.
  - apply IH. intros Hin. apply Hnotin. now right.
Qed.

Lemma count_of_cons (a : string) (l : list string) (g : string) :
  count_of g (a :: l) = (if a =? g then 1 else 0) + count_of g l.
Proof. unfold count_of. simpl. destruct (a =? g); reflexivity. Qed.

Lemma list_sum_add {A : Type} (f h : A -> nat) (l : list A) :
  list_sum (map (fun x => f x + h x) l) = list_sum (map f l) + list_sum (map h l).
Proof. induction l as [| x l IH]; simpl; lia. Qed.

(** Distinct values share the entries of a column among them. *)
Lemma sum_counts_le (gs l : list string) :
  NoDup gs -> list_sum (map (fun g => count_of g l) gs) <= List.length l.
Proof.
  intros Hnd. induction l as [| a l IH].
  - replace (map (fun g => count_of g []) gs) with (map (fun _ : string => 0) gs)
      by (apply map_ext; reflexivity).
    clear Hnd. induction gs; simpl in *; lia.
  - rewrite (map_ext _ _ (count_of_cons a l)), list_sum_add.
    pose proof (indicator_sum a gs Hnd). simpl. lia.
Qed.

(** The series [value_counts()]: one entry per distinct value with the
    number of its occurrences, most frequent first. *)
Lemma value_counts_spec (v : list (option string)) :
  let full := value_counts v in
  (forall g n, In (g, n) full <-> In (Some g) v /\ n = count_of g (dropna v)) /\
  NoDup (map fst full) /\
  StronglySorted (fun a b => snd b <= snd a) full /\
  list_sum (map snd full) <= List.length (dropna v).
Proof.
  intros full. unfold full, value_counts.
  set (vals := dropna v).
  set (counts := map (fun g => (g, count_of g vals)) (unique vals)).
  assert (Hperm : Permutation (sort_by (fun a b => Nat.leb (snd b) (snd a)) counts) counts)
    by apply sort_by_perm.
  split; [| split; [| split]].
  - intros g n. rewrite sort_by_In. unfold counts. rewrite in_map_iff. split.
    + intros (g' & Heq & Hin). inversion Heq; subst.
      rewrite in_unique in Hin. unfold vals in Hin. rewrite in_dropna in Hin.
      split; [exact Hin | reflexivity].
    + intros [Hin ->]. exists g. split; [reflexivity |].
      rewrite in_unique. unfold vals. now rewrite in_dropna.
  - eapply Permutation_NoDup; [apply Permutation_map, Permutation_sym, Hperm |].
    unfold counts. rewrite map_map. simpl. rewrite map_id. apply NoDup_unique.
  - eapply StronglySorted_weaken; [| apply sort_by_sorted].
    + intros a b H. apply Nat.leb_le, H.
    + intros x y H. apply Nat.leb_le. apply Nat.leb_gt in H. lia.
    + intros x y z H1 H2. apply Nat.leb_le. apply Nat.leb_le in H1, H2. lia.
  - rewrite (list_sum_perm _ _ (Permutation_map snd Hperm)).
    unfold counts. rewrite map_map. simpl. apply sum_counts_le, NoDup_unique.
Qed.

(** C4: with [x] the categorical column chosen, the data of the pie chart
    are the first 10 entries of the series [full] that counts the
    occurrences of each distinct value of [x] that is not null in the
    filtered table, most frequent first; so the chart shows at most 10
    values, none less frequent than a value it leaves out, and the counts
    shown add up to at most the number of entries of the column that are
    not null. *)
Theorem pie_data_spec (base : table) (w : widgets) :
  NoDup (columns base) ->
  categorical_cols base <> [] ->
  exists d x v full data,
    script base w = Ok d /\
    selectbox String.eqb (categorical_cols base) (w_pie_col w) = Some x /\
    getitem (preview d) (Some x) = Ok (ObjectSeries v) /\
    pie d = Some data /\
    data = firstn 10 full /\
    List.length data <= 10 /\
    (forall g n, In (g, n) full <-> In (Some g) v /\ n = count_of g (dropna v)) /\
    NoDup (map fst full) /\
    StronglySorted (fun a b => snd b <= snd a) full /\
    list_sum (map snd data) <= List.length (dropna v).
Proof.
  intros Hnd Hcat.
  destruct (script_spec base w Hnd)
    as (df & o & k & b & s & h & p & _ & Hs & _ & _ & _ & _ & Hp & H).
  destruct (pie_chart_spec base df w Hs Hnd)
    as [[E _] | (_ & x & v & Hx & Hv & E)]; [contradiction |].
  assert (Hp' : p = Some (head 10 (value_counts v))) by congruence.
  subst p. clear Hp.
  destruct (value_counts_spec v) as (Hin & Hnd' & Hsorted & Hsum).
  eexists. exists x, v, (value_counts v). eexists.
  split; [exact H |]. cbn [preview pie].
  repeat (split; [first [assumption | reflexivity] |]).
  split; [apply head_length |].
  repeat (split; [assumption |]).
  unfold head. rewrite <- firstn_map.
  eapply Nat.le_trans; [apply list_sum_firstn | exact Hsum].
Qed.

Lemma pie_data_spec_witness :
  NoDup (columns cars) /\
  categorical_cols cars <> [] /\
  exists d x v full data,
    script cars no_choice = Ok d /\
    selectbox String.eqb (categorical_cols cars) (w_pie_col no_choice) = Some x /\
    getitem (preview d) (Some x) = Ok (ObjectSeries v) /\
    pie d = Some data /\
    data = firstn 10 full /\
    List.length data <= 10 /\
    (forall g n, In (g, n) full <-> In (Some g) v /\ n = count_of g (dropna v)) /\
    NoDup (map fst full) /\
    StronglySorted (fun a b => snd b <= snd a) full /\
    list_sum (map snd data) <= List.length (dropna v).
Proof.
  assert (Hcat : categorical_cols cars <> []) by discriminate.
  split; [exact cars_columns_distinct |]. split; [exact Hcat |].
  exact (pie_data_spec cars no_choice cars_columns_distinct Hcat).
Defined.

Example cars_pie_chart :
  (d <- run cars_file no_choice ;; Ok (pie d)) = Ok (Some [("Honda", 2); ("Toyota", 1)]).
Proof. reflexivity. Qed.

(** ** The filtered table feeds every section *)

Lemma sections_same_choices (df : table) (num cat : list string) (w w' : widgets) :
  same_chart_choices w w' ->
  bar_chart df num cat w = bar_chart df num cat w' /\
  scatter_chart df num cat w = scatter_chart df num cat w' /\
  histogram_chart df num w = histogram_chart df num w' /\
  pie_chart df cat w = pie_chart df cat w'.
Proof.
  intros (Hx & Hy & Hsx & Hsy & Hc & Hh & Hp).
  unfold bar_chart, scatter_chart, histogram_chart, pie_chart.
  rewrite Hx, Hy, Hsx, Hsy, Hc, Hh, Hp. repeat split; reflexivity.
Qed.

(** C8: when the sidebar returns the column [col] and a value [sel] other
    than ["All"], the page shows the rows of the base table whose [col] is
    [sel], and the KPIs, the data of the four charts and the exported file
    are those of the sections run on that filtered table.  The base table
    plays no other part: any run on a table with the same columns that
    previews the same filtered table, with the same choices in the chart
    panels, shows the same results. *)
Theorem derived_from_filtered (base : table) (w : widgets) (col : string)
    (v : list (option string)) (sel : string) :
  NoDup (columns base) ->
  selectbox String.eqb (categorical_cols base) (w_main_cat_col w) = Some col ->
  getitem base (Some col) = Ok (ObjectSeries v) ->
  selectbox String.eqb (unique_vals v) (w_selected_cat w) = Some sel ->
  sel <> "All" ->
  let filtered := boolean_index base (eq_value v sel) in
  exists d,
    script base w = Ok d /\
    preview d = filtered /\
    kpi_section filtered (numeric_cols base) = Ok (kpis d) /\
    bar_chart filtered (numeric_cols base) (categorical_cols base) w = Ok (bar d) /\
    scatter_chart filtered (numeric_cols base) (categorical_cols base) w
    = Ok (scatter d) /\
    histogram_chart filtered (numeric_cols base) w = Ok (histogram d) /\
    pie_chart filtered (categorical_cols base) w = Ok (pie d) /\
    download d = to_csv filtered /\
    forall base' w' d',
      NoDup (columns base') -> schema base' = schema base ->
      same_chart_choices w w' ->
      script base' w' = Ok d' -> preview d' = filtered ->
      kpis d' = kpis d /\ bar d' = bar d /\ scatter d' = scatter d /\
      histogram d' = histogram d /\ pie d' = pie d /\ download d' = download d.
Proof.
  intros Hnd Hcol Hv Hsel Hne filtered.
  destruct (script_spec base w Hnd)
    as (df & o & k & b & s & h & p & Hf & _ & Hk & Hb & Hsc & Hh & Hp & H).
  assert (Hdf : df = filtered).
  { destruct (sidebar_filters_spec base w Hnd)
      as [[E _] | (col' & v' & sel' & Hcol' & _ & Hv' & Hsel' & _ & Hs)].
    - apply selectbox_In in Hcol; [| apply string_eqb_true].
      rewrite E in Hcol. contradiction.
    - rewrite Hcol in Hcol'. inversion Hcol'; subst col'.
      rewrite Hv in Hv'. inversion Hv'; subst v'.
      rewrite Hsel in Hsel'. inversion Hsel'; subst sel'.
      rewrite Hs in Hf. apply String.eqb_neq in Hne. rewrite Hne in Hf.
      cbn [negb] in Hf. unfold filtered. congruence. }
  subst df. eexists. split; [exact H |]. cbn [preview kpis bar scatter histogram pie download].
  repeat (split; [first [assumption | reflexivity] |]).
  intros base' w' d' Hnd' Hschema Hsame H' Hprev.
  destruct (script_spec base' w' Hnd')
    as (df' & o' & k' & b' & s' & h' & p' & _ & _ & Hk' & Hb' & Hsc' & Hh' & Hp' & E).
  rewrite E in H'. inversion H'; subst d'. clear H'.
  cbn [preview kpis bar scatter histogram pie download] in *. subst df'.
  rewrite (numeric_cols_schema _ _ Hschema) in Hk', Hb', Hsc', Hh'.
  rewrite (categorical_cols_schema _ _ Hschema) in Hb', Hsc', Hp'.
  destruct (sections_same_choices filtered (numeric_cols base) (categorical_cols base)
              w w' Hsame) as (Eb & Es & Eh & Ep).
  rewrite <- Eb in Hb'. rewrite <- Es in Hsc'. rewrite <- Eh in Hh'. rewrite <- Ep in Hp'.
  repeat split; congruence.
Qed.

Lemma derived_from_filtered_witness :
  let v := [Some "Honda"; Some "Honda"; Some "Toyota"] in
  let filtered := boolean_index cars (eq_value v "Honda") in
  NoDup (columns cars) /\
  selectbox String.eqb (categorical_cols cars) (w_main_cat_col (pick "Honda"))
  = Some "Manufacturer" /\
  getitem cars (Some "Manufacturer") = Ok (ObjectSeries v) /\
  selectbox String.eqb (unique_vals v) (w_selected_cat (pick "Honda")) = Some "Honda" /\
  "Honda" <> "All" /\
  exists d,
    script cars (pick "Honda") = Ok d /\
    preview d = filtered /\
    kpi_section filtered (numeric_cols cars) = Ok (kpis d) /\
    bar_chart filtered (numeric_cols cars) (categorical_cols cars) (pick "Honda")
    = Ok (bar d) /\
    scatter_chart filtered (numeric_cols cars) (categorical_cols cars) (pick "Honda")
    = Ok (scatter d) /\
    histogram_chart filtered (numeric_cols cars) (pick "Honda") = Ok (histogram d) /\
    pie_chart filtered (categorical_cols cars) (pick "Honda") = Ok (pie d) /\
    download d = to_csv filtered /\
    forall base' w' d',
      NoDup (columns base') -> schema base' = schema cars ->
      same_chart_choices (pick "Honda") w' ->
      script base' w' = Ok d' -> preview d' = filtered ->
      kpis d' = kpis d /\ bar d' = bar d /\ scatter d' = scatter d /\
      histogram d' = histogram d /\ pie d' = pie d /\ download d' = download d.
Proof.
  intros v filtered.
  assert (Hne : "Honda" <> "All") by discriminate.
  split; [exact cars_columns_distinct |].
  split; [reflexivity |]. split; [reflexivity |]. split; [reflexivity |].
  split; [exact Hne |].
  exact (derived_from_filtered cars (pick "Honda") "Manufacturer" v "Honda"
           cars_columns_distinct eq_refl eq_refl eq_refl Hne).
Defined.

(** The filtered table of the three cars is the table of the two Hondas:
    the page of the one filtered on Honda and the page of the other with no
    filter show the same metric. *)
Example hondas_same_page :
  (d <- script cars (pick "Honda") ;; Ok (preview d, kpis d))
  = (d <- script hondas no_choice ;; Ok (preview d, kpis d)).
Proof. reflexivity. Qed.

(** ** A filter that leaves no row *)

Lemma take_mask_length {A B : Type} (mask : list bool) (l1 : list A) (l2 : list B) :
  List.length l1 = List.length l2 ->
  List.length (take_mask mask l1) = List.length (take_mask mask l2).
Proof.
  revert l1 l2. induction mask as [| b mask IH]; intros l1 l2 Hlen; [reflexivity |].
  destruct l1 as [| a1 l1], l2 as [| a2 l2]; simpl in *; try discriminate; [reflexivity |].
  injection Hlen as Hlen. destruct b; simpl; [f_equal |]; apply IH, Hlen.
Qed.

Lemma series_mask_length (mask : list bool) (s1 s2 : series) :
  series_len s1 = series_len s2 ->
  series_len (series_mask mask s1) = series_len (series_mask mask s2).
Proof.
  destruct s1, s2; simpl; apply take_mask_length.
Qed.

Lemma boolean_index_well_formed (df : table) (mask : list bool) :
  well_formed df -> well_formed (boolean_index df mask).
Proof.
  intros [Hnd Hlen]. split; [now rewrite boolean_index_columns |].
  intros c Hc. unfold boolean_index in Hc. apply in_map_iff in Hc.
  destruct Hc as (c0 & <- & Hc0). simpl.
  destruct df as [| c1 df]; [contradiction |]. simpl.
  apply series_mask_length. rewrite (Hlen c0 Hc0). reflexivity.
Qed.





(** On a frame with no row the metric of [Price] is NaN and the two
    aggregated charts are empty. *)
Example no_cars_page :
  (d <- script no_cars no_choice ;; Ok (nrows (preview d), kpis d, bar d, pie d))
  = Ok (0, [("Price", None)], Some [], Some []).
Proof. reflexivity. Qed.

(** ** Writing and reading integers *)








(** ** Writing and reading columns *)



Lemma all_some_length {A : Type} (l : list (option A)) (v : list A) :
  all_some l = Some v -> List.length v = List.length l.
Proof.
  revert v. induction l as [| [a |] l IH]; simpl; intros v H.
  - now inversion H.
  - destruct (all_some l) as [v' |]; [| discriminate]. simpl in H.
    inversion H; subst. simpl. now rewrite (IH v' eq_refl).
  - discriminate.
Qed.


Lemma infer_column_length (fields : list string) :
  series_len (infer_column fields) = List.length fields.
Proof.
  destruct fields as [| f fields]; [reflexivity |].
  set (l := f :: fields). unfold infer_column. fold l.
  destruct (all_some (map parse_int l)) as [v |] eqn:H1.
  { simpl. apply all_some_length in H1. now rewrite H1, length_map. }
  destruct (all_some (map (or_na parse_float) l)) as [v |] eqn:H2.
  { simpl. apply all_some_length in H2. now rewrite H2, length_map. }
  destruct (all_some (map parse_bool l)) as [v |] eqn:H3.
  { simpl. apply all_some_length in H3. now rewrite H3, length_map. }
  destruct (all_some (map (or_na parse_bool) l)) as [v |] eqn:H4.
  { simpl. apply all_some_length in H4. now rewrite length_map, H4, length_map. }
  simpl. now rewrite length_map.
Qed.








(** ** The exported file *)

Lemma map_nth_seq {A : Type} (l : list A) (d : A) :
  map (fun i => nth i l d) (seq 0 (List.length l)) = l.
Proof.
  induction l as [| a l IH]; [reflexivity |].
  simpl. f_equal. rewrite <- seq_shift, map_map. exact IH.
Qed.





Lemma sidebar_filters_well_formed (base : table) (w : widgets) (df : table)
    (o : option (list string)) :
  well_formed base ->
  sidebar_filters base (categorical_cols base) w = Ok (df, o) ->
  well_formed df.
Proof.
  intros Hwf Hf. pose proof Hwf as [Hnd _].
  destruct (sidebar_filters_spec base w Hnd)
    as [[_ E] | (col & v & sel & _ & _ & _ & _ & _ & E)];
    rewrite E in Hf; inversion Hf; subst; [exact Hwf |].
  destruct (negb (sel =? "All")); [apply boolean_index_well_formed |]; exact Hwf.
Qed.


Lemma cars_well_formed : well_formed cars.
Proof.
  split; [exact cars_columns_distinct |].
  intros c [<- | [<- | []]]; reflexivity.
Qed.


(** The file exported for the two Hondas, and the table read back from it. *)
Example hondas_export :
  (d <- run cars_file (pick "Honda") ;; Ok (download d))
  = Ok {| header := ["Manufacturer"; "Price"];
          records := [["Honda"; "20000"]; ["Honda"; "22000"]] |} /\
  (d <- run cars_file (pick "Honda") ;; read_csv (download d)) = Ok hondas.
Proof. split; reflexivity. Qed.


(** * Further properties of the script *)

(** ** Loading the file *)

Lemma read_csv_Ok (f : csv_file) (df : table) :
  read_csv f = Ok df <->
  header f <> [] /\
  Forall (fun r => List.length r <= List.length (header f)) (records f) /\
  df = map (fun i => (nth i (header f) "",
                      infer_column (map (fun r => nth i r "") (records f))))
           (seq 0 (List.length (header f))).
Proof.
  unfold read_csv.
  assert (Hall : forallb (fun r => Nat.leb (List.length r) (List.length (header f)))
                         (records f) = true <->
                 Forall (fun r => List.length r <= List.length (header f)) (records f)).
  { rewrite forallb_forall, Forall_forall. split; intros H r Hr.
    - apply Nat.leb_le, H, Hr.
    - apply Nat.leb_le, H, Hr. }
  destruct (header f) as [| c cs] eqn:Hh.
  - split; [discriminate | intros [H _]; contradiction].
  - destruct (forallb _ (records f)) eqn:Hf.
    + split.
      * intros H. split; [discriminate |]. split; [now apply Hall | congruence].
      * intros (_ & _ & ->). reflexivity.
    + split; [discriminate |]. intros (_ & H & _). apply Hall in H. discriminate H.
Qed.

(** X1: the table loaded from a file has one column for each name of the
    header, in the order of the header, and every column has one value for
    each record of the file. *)
Theorem load_data_shape (f : csv_file) (df : table) :
  load_data f = Ok df ->
  columns df = header f /\
  nrows df = List.length (records f) /\
  forall c, In c df -> series_len (snd c) = List.length (records f).
Proof.
  unfold load_data. intros H. apply read_csv_Ok in H. destruct H as (Hne & _ & ->).
  assert (Hlen : forall c,
             In c (map (fun i => (nth i (header f) "",
                                  infer_column (map (fun r => nth i r "") (records f))))
                       (seq 0 (List.length (header f)))) ->
             series_len (snd c) = List.length (records f)).
  { intros c Hc. apply in_map_iff in Hc. destruct Hc as (i & <- & _).
    simpl. now rewrite infer_column_length, length_map. }
  split; [| split; [| exact Hlen]].
  - unfold columns. rewrite map_map. simpl. apply map_nth_seq.
  - destruct (header f) as [| c cs]; [contradiction |].
    apply Hlen. left. reflexivity.
Qed.

Lemma load_data_shape_witness :
  load_data cars_file = Ok cars /\
  columns cars = header cars_file /\
  nrows cars = List.length (records cars_file) /\
  forall c, In c cars -> series_len (snd c) = List.length (records cars_file).
Proof.
  split; [reflexivity |].
  exact (load_data_shape cars_file cars eq_refl).
Defined.






Lemma select_dtypes_none (include : list dtype) (df : table) :
  (forall c, In c df -> existsb (dtype_eqb (dtype_of (snd c))) include = false) ->
  select_dtypes include df = [].
Proof.
  intros H. unfold select_dtypes. induction df as [| c df IH]; [reflexivity |].
  simpl. rewrite (H c (or_introl eq_refl)). apply IH.
  intros c' Hc'. apply H. now right.
Qed.

Lemma select_dtypes_all (include : list dtype) (df : table) :
  (forall c, In c df -> existsb (dtype_eqb (dtype_of (snd c))) include = true) ->
  select_dtypes include df = df.
Proof.
  intros H. unfold select_dtypes. induction df as [| c df IH]; [reflexivity |].
  simpl. rewrite (H c (or_introl eq_refl)). f_equal. apply IH.
  intros c' Hc'. apply H. now right.
Qed.

(** X4: a file with a header and no record is loaded with object columns
    only, so its page has the filter with the one option ["All"], no KPI, no
    bar chart, scatter plot or histogram, a pie chart with no data, and an
    export with the header alone. *)
Theorem header_only_page (f : csv_file) (w : widgets) :
  records f = [] ->
  header f <> [] ->
  NoDup (header f) ->
  exists d,
    run f w = Ok d /\
    columns (preview d) = header f /\
    nrows (preview d) = 0 /\
    warning d = false /\
    filter_options d = Some ["All"] /\
    kpis d = [] /\
    bar d = None /\ scatter d = None /\ histogram d = None /\
    pie d = Some [] /\
    download d = {| header := header f; records := [] |}.
Proof.
  intros Hrec Hne Hnd.
  pose (df := map (fun i => (nth i (header f) "",
                             infer_column (map (fun r => nth i r "") (records f))))
                  (seq 0 (List.length (header f)))).
  assert (Hload : load_data f = Ok df).
  { apply read_csv_Ok. repeat split; [assumption | now rewrite Hrec]. }
  destruct (load_data_shape f df Hload) as (Hcols & Hrows & _).
  rewrite Hrec in Hrows. simpl in Hrows.
  assert (Hobj : forall c, In c df -> snd c = ObjectSeries []).
  { intros c Hc. apply in_map_iff in Hc. destruct Hc as (i & <- & _).
    simpl. now rewrite Hrec. }
  assert (Hnum : numeric_cols df = []).
  { unfold numeric_cols. rewrite select_dtypes_none; [reflexivity |].
    intros c Hc. now rewrite (Hobj c Hc). }
  assert (Hcat : categorical_cols df = header f).
  { unfold categorical_cols. rewrite select_dtypes_all; [exact Hcols |].
    intros c Hc. now rewrite (Hobj c Hc). }
  assert (Hnd' : NoDup (columns df)) by (now rewrite Hcols).
  assert (Hempty : forall x v, getitem df (Some x) = Ok (ObjectSeries v) -> v = []).
  { intros x v Hg. apply getitem_Ok_In in Hg. destruct Hg as (c & _ & Hin).
    apply Hobj in Hin. simpl in Hin. congruence. }
  destruct (script_spec df w Hnd')
    as (df' & o & k & b & s & h & p & Hf & Hs & Hk & Hb & Hsc & Hh & Hp & H).
  assert (Hside : df' = df /\ o = Some ["All"]).
  { destruct (sidebar_filters_spec df w Hnd')
      as [[E _] | (col & v & sel & _ & _ & Hv & _ & Hsel & E)].
    - rewrite Hcat in E. contradiction.
    - apply Hempty in Hv. subst v. destruct Hsel as [<- | []].
      rewrite E in Hf. simpl in Hf. inversion Hf. split; reflexivity. }
  destruct Hside as [-> ->].
  assert (k = []).
  { destruct (kpi_section_spec df df eq_refl Hnd') as (k' & Hk' & Hfst & _).
    rewrite Hnum in Hfst. simpl in Hfst. apply map_eq_nil in Hfst. congruence. }
  assert (b = None).
  { destruct (bar_chart_spec df df w eq_refl Hnd') as [[_ E] | (_ & Hn & _)];
      [congruence | contradiction]. }
  assert (s = None).
  { destruct (scatter_chart_spec df df w eq_refl Hnd') as [[_ E] | (Hn & _)];
      [congruence | rewrite Hnum in Hn; simpl in Hn; lia]. }
  assert (h = None).
  { destruct (histogram_chart_spec df df w eq_refl Hnd') as [[_ E] | (Hn & _)];
      [congruence | contradiction]. }
  assert (p = Some []).
  { destruct (pie_chart_spec df df w eq_refl Hnd') as [[E _] | (_ & x & v & _ & Hv & E)].
    - rewrite Hcat in E. contradiction.
    - apply Hempty in Hv. subst v. rewrite E in Hp. simpl in Hp. congruence. }
  subst k b s h p.
  eexists. unfold run. rewrite Hload. cbn [bind]. split; [exact H |].
  cbn [preview warning filter_options kpis bar scatter histogram pie download].
  repeat (split; [first [assumption | reflexivity] |]).
  unfold to_csv. now rewrite Hcols, Hrows.
Qed.

Lemma header_only_page_witness :
  records header_only_file = [] /\
  header header_only_file <> [] /\
  NoDup (header header_only_file) /\
  exists d,
    run header_only_file (pick "Honda") = Ok d /\
    columns (preview d) = header header_only_file /\
    nrows (preview d) = 0 /\
    warning d = false /\
    filter_options d = Some ["All"] /\
    kpis d = [] /\
    bar d = None /\ scatter d = None /\ histogram d = None /\
    pie d = Some [] /\
    download d = {| header := header header_only_file; records := [] |}.
Proof.
  assert (Hne : header header_only_file <> []) by discriminate.
  assert (Hnd : NoDup (header header_only_file))
    by (repeat constructor; simpl; intuition discriminate).
  split; [reflexivity |]. split; [exact Hne |]. split; [exact Hnd |].
  exact (header_only_page header_only_file (pick "Honda") eq_refl Hne Hnd).
Defined.

(** ** The row filter *)

Lemma take_mask_le {A : Type} (mask : list bool) (l : list A) :
  List.length (take_mask mask l) <= List.length l.
Proof.
  revert l. induction mask as [| b mask IH]; intros [| a l]; simpl; try lia.
  specialize (IH l). destruct b; simpl; lia.
Qed.

Lemma take_mask_eq_value (v : list (option string)) (sel : string) :
  take_mask (eq_value v sel) v = repeat (Some sel) (count_of sel (dropna v)).
Proof.
  unfold count_of. induction v as [| [x |] v IH]; simpl; [reflexivity | | exact IH].
  destruct (String.eqb_spec x sel) as [-> | Hne]; simpl; [now rewrite IH | exact IH].
Qed.

Lemma eq_value_repeat (sel : string) (n : nat) :
  eq_value (repeat (Some sel) n) sel = repeat true n.
Proof.
  unfold eq_value. induction n as [| n IH]; simpl; [reflexivity |].
  now rewrite String.eqb_refl, IH.
Qed.

Lemma take_mask_true {A : Type} (n : nat) (l : list A) :
  List.length l <= n -> take_mask (repeat true n) l = l.
Proof.
  revert l. induction n as [| n IH]; intros [| a l]; simpl; intros H;
    try reflexivity; try lia.
  f_equal. apply IH. lia.
Qed.

Lemma series_mask_true (n : nat) (s : series) :
  series_len s <= n -> series_mask (repeat true n) s = s.
Proof.
  destruct s; simpl; intros H; f_equal; apply take_mask_true, H.
Qed.

Lemma count_of_pos (x : string) (l : list string) : In x l -> 1 <= count_of x l.
Proof.
  unfold count_of. induction l as [| a l IH]; simpl; intros H; [contradiction |].
  destruct (String.eqb_spec a x) as [-> | Hne]; simpl; [lia |].
  destruct H as [-> | H]; [contradiction | apply IH, H].
Qed.

Lemma in_unique_vals (v : list (option string)) (x : string) :
  In x (unique_vals v) -> x = "All" \/ In (Some x) v.
Proof.
  intros [<- | H]; [now left | right].
  unfold sorted in H. now rewrite sort_by_In, in_unique, in_dropna in H.
Qed.

Lemma nrows_boolean_index (df : table) (mask : list bool) (c : string)
    (v : list (option string)) :
  well_formed df -> In (c, ObjectSeries v) df ->
  nrows (boolean_index df mask) = List.length (take_mask mask v).
Proof.
  intros [_ Hlen] Hin. destruct df as [| c0 df]; [contradiction |].
  pose proof (Hlen _ Hin) as Hv. pose proof (Hlen c0 (or_introl eq_refl)) as H0.
  simpl in *. destruct (snd c0); simpl in *;
    apply take_mask_length; congruence.
Qed.

(** X5: the filter selects rows and leaves the columns alone: the table
    shown has the columns of the base table, with their names, order and
    dtypes, so the same numeric and categorical columns, and no more rows. *)
Theorem filter_keeps_columns (base : table) (w : widgets) :
  NoDup (columns base) ->
  exists d,
    script base w = Ok d /\
    schema (preview d) = schema base /\
    columns (preview d) = columns base /\
    numeric_cols (preview d) = numeric_cols base /\
    categorical_cols (preview d) = categorical_cols base /\
    nrows (preview d) <= nrows base.
Proof.
  intros Hnd.
  destruct (script_spec base w Hnd)
    as (df & o & k & b & s & h & p & Hf & Hs & _ & _ & _ & _ & _ & H).
  eexists. split; [exact H |]. cbn [preview].
  split; [exact Hs |]. split; [apply columns_same_schema, Hs |].
  split; [apply numeric_cols_schema, Hs |].
  split; [apply categorical_cols_schema, Hs |].
  destruct (sidebar_filters_spec base w Hnd)
    as [[_ E] | (col & v & sel & _ & _ & _ & _ & _ & E)];
    rewrite E in Hf; inversion Hf; subst; [lia |].
  destruct (negb (sel =? "All")); [| lia].
  destruct base as [| c0 base]; [simpl; lia |].
  simpl. destruct (snd c0); simpl; apply take_mask_le.
Qed.

Lemma filter_keeps_columns_witness :
  NoDup (columns cars) /\
  exists d,
    script cars (pick "Honda") = Ok d /\
    schema (preview d) = schema cars /\
    columns (preview d) = columns cars /\
    numeric_cols (preview d) = numeric_cols cars /\
    categorical_cols (preview d) = categorical_cols cars /\
    nrows (preview d) <= nrows cars.
Proof.
  split; [exact cars_columns_distinct |].
  exact (filter_keeps_columns cars (pick "Honda") cars_columns_distinct).
Defined.

(** The table left by a selection other than ["All"]. *)
Lemma filtered_table_spec (base : table) (w : widgets) (col : string)
    (v : list (option string)) (sel : string) :
  well_formed base ->
  selectbox String.eqb (categorical_cols base) (w_main_cat_col w) = Some col ->
  getitem base (Some col) = Ok (ObjectSeries v) ->
  selectbox String.eqb (unique_vals v) (w_selected_cat w) = Some sel ->
  sel <> "All" ->
  let df := boolean_index base (eq_value v sel) in
  let n := count_of sel (dropna v) in
  sidebar_filters base (categorical_cols base) w = Ok (df, Some (unique_vals v)) /\
  getitem df (Some col) = Ok (ObjectSeries (repeat (Some sel) n)) /\
  nrows df = n /\
  1 <= n.
Proof.
  intros Hwf Hcol Hv Hsel Hne df n. pose proof Hwf as [Hnd _].
  pose proof Hv as Hin. apply getitem_Ok_In in Hin.
  destruct Hin as (c & Hc & Hin). inversion Hc; subst c. clear Hc.
  split; [| split; [| split]].
  - destruct (sidebar_filters_spec base w Hnd)
      as [[E _] | (col' & v' & sel' & Hcol' & _ & Hv' & Hsel' & _ & E)].
    + apply selectbox_In in Hcol; [| apply string_eqb_true].
      rewrite E in Hcol. contradiction.
    + assert (col' = col) by congruence. subst col'.
      assert (v' = v) by congruence. subst v'.
      assert (sel' = sel) by congruence. subst sel'.
      rewrite E. apply String.eqb_neq in Hne. rewrite Hne. reflexivity.
  - apply getitem_In; [unfold df; now rewrite boolean_index_columns |].
    unfold df, boolean_index. apply in_map_iff. exists (col, ObjectSeries v).
    split; [| exact Hin]. simpl. now rewrite take_mask_eq_value.
  - unfold df. rewrite (nrows_boolean_index base _ col v Hwf Hin), take_mask_eq_value.
    apply repeat_length.
  - apply count_of_pos. apply in_dropna.
    apply selectbox_In in Hsel; [| apply string_eqb_true].
    destruct (in_unique_vals v sel Hsel) as [E | E]; [contradiction | exact E].
Qed.

(** X6: when the sidebar returns a value [sel] other than ["All"] for the
    column [col], the table shown has exactly the rows of the base table
    whose [col] is [sel]: its column [col] holds [sel] and nothing else, as
    many times as [sel] occurs in the base column, and that is at least
    once, so a value picked in the select box never leaves an empty
    table. *)
Theorem filter_selects_matching_rows (base : table) (w : widgets) (col : string)
    (v : list (option string)) (sel : string) :
  well_formed base ->
  selectbox String.eqb (categorical_cols base) (w_main_cat_col w) = Some col ->
  getitem base (Some col) = Ok (ObjectSeries v) ->
  selectbox String.eqb (unique_vals v) (w_selected_cat w) = Some sel ->
  sel <> "All" ->
  exists d,
    script base w = Ok d /\
    preview d = boolean_index base (eq_value v sel) /\
    getitem (preview d) (Some col)
    = Ok (ObjectSeries (repeat (Some sel) (count_of sel (dropna v)))) /\
    nrows (preview d) = count_of sel (dropna v) /\
    1 <= nrows (preview d).
Proof.
  intros Hwf Hcol Hv Hsel Hne. pose proof Hwf as [Hnd _].
  destruct (filtered_table_spec base w col v sel Hwf Hcol Hv Hsel Hne)
    as (Hside & Hg & Hrows & Hpos).
  destruct (script_spec base w Hnd)
    as (df & o & k & b & s & h & p & Hf & _ & _ & _ & _ & _ & _ & H).
  assert (df = boolean_index base (eq_value v sel)) by congruence. subst df.
  eexists. split; [exact H |]. cbn [preview].
  split; [reflexivity |]. split; [exact Hg |]. split; [exact Hrows |].
  rewrite Hrows. exact Hpos.
Qed.

Lemma filter_selects_matching_rows_witness :
  let v := [Some "Honda"; Some "Honda"; Some "Toyota"] in
  well_formed cars /\
  selectbox String.eqb (categorical_cols cars) (w_main_cat_col (pick "Honda"))
  = Some "Manufacturer" /\
  getitem cars (Some "Manufacturer") = Ok (ObjectSeries v) /\
  selectbox String.eqb (unique_vals v) (w_selected_cat (pick "Honda")) = Some "Honda" /\
  "Honda" <> "All" /\
  exists d,
    script cars (pick "Honda") = Ok d /\
    preview d = boolean_index cars (eq_value v "Honda") /\
    getitem (preview d) (Some "Manufacturer")
    = Ok (ObjectSeries (repeat (Some "Honda") (count_of "Honda" (dropna v)))) /\
    nrows (preview d) = count_of "Honda" (dropna v) /\
    1 <= nrows (preview d).
Proof.
  intros v.
  assert (Hne : "Honda" <> "All") by discriminate.
  split; [exact cars_well_formed |].
  split; [reflexivity |]. split; [reflexivity |]. split; [reflexivity |].
  split; [exact Hne |].
  exact (filter_selects_matching_rows cars (pick "Honda") "Manufacturer" v "Honda"
           cars_well_formed eq_refl eq_refl eq_refl Hne).
Defined.

(** X7: the sidebar shows its warning exactly when the table has no
    categorical column; the page then has no filter, shows the base table as
    it is, and has neither bar chart nor pie chart. *)
Theorem warning_without_categorical (base : table) (w : widgets) :
  NoDup (columns base) ->
  exists d,
    script base w = Ok d /\
    (warning d = true <-> categorical_cols base = []) /\
    (filter_options d = None <-> categorical_cols base = []) /\
    (categorical_cols base = [] ->
     preview d = base /\ bar d = None /\ pie d = None).
Proof.
  intros Hnd.
  destruct (script_spec base w Hnd)
    as (df & o & k & b & s & h & p & Hf & Hs & _ & Hb & _ & _ & Hp & H).
  eexists. split; [exact H |]. cbn [warning filter_options preview bar pie].
  destruct (sidebar_filters_spec base w Hnd)
    as [[Hcat E] | (col & v & sel & Hcol & Hin & _ & _ & _ & E)];
    rewrite E in Hf; injection Hf as Hdf Ho; subst df o.
  - split; [tauto |]. split; [tauto |]. intros _. split; [reflexivity |]. split.
    + destruct (bar_chart_spec base base w eq_refl Hnd) as [[_ Eb] | (Hc & _)];
        [congruence | contradiction].
    + destruct (pie_chart_spec base base w eq_refl Hnd) as [[_ Ep] | (Hc & _)];
        [congruence | contradiction].
  - assert (Hne : categorical_cols base <> []) by (intros E'; now rewrite E' in Hin).
    split; [split; [discriminate | contradiction] |].
    split; [split; [discriminate | contradiction] |]. contradiction.
Qed.

Lemma warning_without_categorical_witness :
  let prices := [("Price", IntSeries [20000; 22000]%Z)] in
  NoDup (columns prices) /\
  exists d,
    script prices no_choice = Ok d /\
    (warning d = true <-> categorical_cols prices = []) /\
    (filter_options d = None <-> categorical_cols prices = []) /\
    (categorical_cols prices = [] ->
     preview d = prices /\ bar d = None /\ pie d = None).
Proof.
  intros prices.
  assert (Hnd : NoDup (columns prices))
    by (repeat constructor; simpl; intuition).
  split; [exact Hnd |].
  exact (warning_without_categorical prices no_choice Hnd).
Defined.

Lemma boolean_index_true (df : table) (n : nat) :
  (forall c, In c df -> series_len (snd c) <= n) ->
  boolean_index df (repeat true n) = df.
Proof.
  intros H. unfold boolean_index. rewrite <- (map_id df) at 2.
  apply map_ext_in. intros [c s] Hin. simpl. f_equal.
  apply series_mask_true. apply (H _ Hin).
Qed.

(** The sidebar run on the table it has filtered, with the same widgets,
    filters nothing more. *)
Lemma sidebar_filters_again (base : table) (w : widgets) (df : table)
    (o : option (list string)) :
  well_formed base ->
  sidebar_filters base (categorical_cols base) w = Ok (df, o) ->
  exists o', sidebar_filters df (categorical_cols df) w = Ok (df, o').
Proof.
  intros Hwf Hf. pose proof Hwf as [Hnd _].
  pose proof (sidebar_filters_well_formed base w df o Hwf Hf) as Hwf'.
  pose proof Hwf' as [Hnd' Hlen'].
  pose proof (sidebar_filters_schema base w df o Hnd Hf) as Hs.
  destruct (sidebar_filters_spec df w Hnd')
    as [[_ E'] | (col' & v' & sel' & Hcol' & _ & Hv' & Hsel' & Hin' & E')];
    [eauto |].
  rewrite E'. destruct (String.eqb_spec sel' "All") as [-> | Hne']; [eauto |].
  cbn [negb]. eexists. do 2 f_equal.
  rewrite (categorical_cols_schema _ _ Hs) in Hcol'.
  destruct (sidebar_filters_spec base w Hnd)
    as [[Hcat _] | (col & v & sel & Hcol & _ & Hv & Hsel & _ & E)].
  { apply selectbox_In in Hcol'; [| apply string_eqb_true].
    rewrite Hcat in Hcol'. contradiction. }
  assert (col' = col) by congruence. subst col'.
  rewrite E in Hf.
  destruct (String.eqb_spec sel "All") as [Heq | Hne]; cbn [negb] in Hf.
  - (* nothing was filtered: the same options give the same value *)
    assert (df = base) by congruence. subst df.
    assert (v' = v) by congruence. subst v'.
    assert (sel' = "All") by congruence. contradiction.
  - assert (Hdf : df = boolean_index base (eq_value v sel)) by congruence.
    pose proof Hv as Hin. apply getitem_Ok_In in Hin.
    destruct Hin as (c & Hc & Hin). inversion Hc; subst c. clear Hc.
    assert (Hv2 : v' = repeat (Some sel) (count_of sel (dropna v))).
    { assert (Hg : getitem df (Some col)
                   = Ok (ObjectSeries (take_mask (eq_value v sel) v))).
      { apply getitem_In; [exact Hnd' |]. rewrite Hdf.
        unfold boolean_index. apply in_map_iff.
        exists (col, ObjectSeries v). split; [reflexivity | exact Hin]. }
      rewrite take_mask_eq_value in Hg. congruence. }
    destruct (in_unique_vals v' sel' Hin') as [? | Hsel2]; [contradiction |].
    rewrite Hv2 in Hsel2. apply repeat_spec in Hsel2. inversion Hsel2; subst sel'.
    rewrite Hv2, eq_value_repeat. apply boolean_index_true.
    intros c Hc. rewrite (Hlen' c Hc).
    apply getitem_Ok_In in Hv'. destruct Hv' as (c' & Hc' & Hin2).
    rewrite <- (Hlen' _ Hin2). simpl. rewrite Hv2, repeat_length. lia.
Qed.

(** X8: filtering is idempotent: the script run on the table it shows, with
    the same widgets, shows the same table, the same KPIs, the same charts
    and the same export. *)
Theorem filter_idempotent (base : table) (w : widgets) :
  well_formed base ->
  exists d d',
    script base w = Ok d /\
    script (preview d) w = Ok d' /\
    preview d' = preview d /\
    kpis d' = kpis d /\ bar d' = bar d /\ scatter d' = scatter d /\
    histogram d' = histogram d /\ pie d' = pie d /\ download d' = download d.
Proof.
  intros Hwf. pose proof Hwf as [Hnd _].
  destruct (script_spec base w Hnd)
    as (df & o & k & b & s & h & p & Hf & Hs & Hk & Hb & Hsc & Hh & Hp & H).
  pose proof (sidebar_filters_well_formed base w df o Hwf Hf) as [Hnd' _].
  destruct (sidebar_filters_again base w df o Hwf Hf) as (o' & Hf').
  destruct (script_spec df w Hnd')
    as (df2 & o2 & k2 & b2 & s2 & h2 & p2 & Hf2 & _ & Hk2 & Hb2 & Hsc2 & Hh2 & Hp2 & H2).
  assert (df2 = df) by congruence. subst df2.
  rewrite (numeric_cols_schema _ _ Hs) in Hk2, Hb2, Hsc2, Hh2.
  rewrite (categorical_cols_schema _ _ Hs) in Hb2, Hsc2, Hp2.
  do 2 eexists. split; [exact H |]. cbn [preview]. split; [exact H2 |].
  cbn [preview kpis bar scatter histogram pie download].
  repeat split; congruence.
Qed.

Lemma filter_idempotent_witness :
  well_formed cars /\
  exists d d',
    script cars (pick "Honda") = Ok d /\
    script (preview d) (pick "Honda") = Ok d' /\
    preview d' = preview d /\
    kpis d' = kpis d /\ bar d' = bar d /\ scatter d' = scatter d /\
    histogram d' = histogram d /\ pie d' = pie d /\ download d' = download d.
Proof.
  split; [exact cars_well_formed |].
  exact (filter_idempotent cars (pick "Honda") cars_well_formed).
Defined.

(** ** The KPI values *)

(** X9: with the filter on ["All"], untouched, or absent for want of a
    categorical column, the metrics are the means of the first four numeric
    columns over the whole base table. *)
Theorem kpi_unfiltered (base : table) (w : widgets) :
  NoDup (columns base) ->
  w_selected_cat w = Some "All" \/ w_selected_cat w = None \/
  categorical_cols base = [] ->
  exists d,
    script base w = Ok d /\
    preview d = base /\
    map fst (kpis d) = firstn 4 (numeric_cols base) /\
    Forall (fun cm => exists s, getitem base (Some (fst cm)) = Ok s /\
                                mean s = Ok (snd cm))
           (kpis d).
Proof.
  intros Hnd Hsel.
  destruct (script_spec base w Hnd)
    as (df & o & k & b & s & h & p & Hf & Hs & Hk & _ & _ & _ & _ & H).
  assert (Hdf : df = base).
  { destruct (sidebar_filters_spec base w Hnd)
      as [[_ E] | (col & v & sel & _ & Hin & _ & Hsel' & _ & E)];
      [congruence |].
    assert (Hall : sel = "All").
    { destruct Hsel as [Hw | [Hw | Hcat]].
      - rewrite Hw, (selectbox_choice _ _ (all_in_unique_vals v)) in Hsel'.
        congruence.
      - rewrite Hw in Hsel'. simpl in Hsel'. congruence.
      - rewrite Hcat in Hin. contradiction. }
    subst sel. rewrite E in Hf. simpl in Hf. congruence. }
  subst df. eexists. split; [exact H |]. cbn [preview kpis].
  split; [reflexivity |].
  destruct (kpi_section_spec base base eq_refl Hnd) as (k' & Hk' & Hfst & Hall).
  assert (k' = k) by congruence. subst k'. split; assumption.
Qed.

Lemma kpi_unfiltered_witness :
  NoDup (columns cars) /\
  (w_selected_cat no_choice = Some "All" \/ w_selected_cat no_choice = None \/
   categorical_cols cars = []) /\
  exists d,
    script cars no_choice = Ok d /\
    preview d = cars /\
    map fst (kpis d) = firstn 4 (numeric_cols cars) /\
    Forall (fun cm => exists s, getitem cars (Some (fst cm)) = Ok s /\
                                mean s = Ok (snd cm))
           (kpis d).
Proof.
  assert (Hsel : w_selected_cat no_choice = Some "All" \/
                 w_selected_cat no_choice = None \/ categorical_cols cars = [])
    by (right; left; reflexivity).
  split; [exact cars_columns_distinct |]. split; [exact Hsel |].
  exact (kpi_unfiltered cars no_choice cars_columns_distinct Hsel).
Defined.







(** ** The groups of the bar chart and of the pie chart *)



Lemma indicator_sum_in (a : string) (gs : list string) :
  NoDup gs -> In a gs -> list_sum (map (fun g => if a =? g then 1 else 0) gs) = 1.
Proof.
  induction 1 as [| g gs Hnotin Hnd IH]; intros Hin; [contradiction |].
  simpl. destruct (String.eqb_spec a g) as [-> | Hne].
  - assert (Hz : list_sum (map (fun g0 => if g =? g0 then 1 else 0) gs) = 0); [| lia].
    clear IH Hnd Hin. induction gs as [| g' gs IH]; simpl; [reflexivity |].
    destruct (String.eqb_spec g g') as [-> | Hne].
    + exfalso. apply Hnotin. now left.
    + apply IH. intros Hin. apply Hnotin. now right.
  - destruct Hin as [-> | Hin]; [contradiction | now rewrite IH].
Qed.

(** The counts of distinct values that cover a column add up to its
    length. *)
Lemma sum_counts_eq (gs l : list string) :
  NoDup gs -> (forall x, In x l -> In x gs) ->
  list_sum (map (fun g => count_of g l) gs) = List.length l.
Proof.
  intros Hnd. induction l as [| a l IH]; intros Hcover.
  - replace (map (fun g => count_of g []) gs) with (map (fun _ : string => 0) gs)
      by (apply map_ext; reflexivity).
    clear Hnd Hcover. induction gs; simpl in *; lia.
  - rewrite (map_ext _ _ (count_of_cons a l)), list_sum_add.
    rewrite (indicator_sum_in a gs Hnd) by (apply Hcover; now left).
    rewrite IH by (intros x Hx; apply Hcover; now right). reflexivity.
Qed.

(** X12: the pie chart has one slice for each distinct value of the column
    chosen that is not null, up to 10; every slice counts at least one
    entry, and when there are at most 10 distinct values the slices account
    for every entry of the column that is not null. *)
Theorem pie_shows_every_value (base : table) (w : widgets) :
  NoDup (columns base) ->
  categorical_cols base <> [] ->
  exists d x v data,
    script base w = Ok d /\
    selectbox String.eqb (categorical_cols base) (w_pie_col w) = Some x /\
    getitem (preview d) (Some x) = Ok (ObjectSeries v) /\
    pie d = Some data /\
    List.length data = Nat.min 10 (List.length (unique (dropna v))) /\
    Forall (fun e => 1 <= snd e) data /\
    (List.length (unique (dropna v)) <= 10 ->
     list_sum (map snd data) = List.length (dropna v)).
Proof.
  intros Hnd Hcat.
  destruct (script_spec base w Hnd)
    as (df & o & k & b & s & h & p & _ & Hs & _ & _ & _ & _ & Hp & H).
  destruct (pie_chart_spec base df w Hs Hnd)
    as [[E _] | (_ & x & v & Hx & Hv & E)]; [contradiction |].
  assert (Hp' : p = Some (head 10 (value_counts v))) by congruence.
  subst p. clear Hp.
  set (counts := map (fun g => (g, count_of g (dropna v))) (unique (dropna v))).
  assert (Hperm : Permutation (value_counts v) counts)
    by (unfold value_counts; apply sort_by_perm).
  assert (Hlen : List.length (value_counts v) = List.length (unique (dropna v))).
  { rewrite (Permutation_length Hperm). unfold counts. apply length_map. }
  eexists. exists x, v. eexists. split; [exact H |]. cbn [preview pie].
  split; [exact Hx |]. split; [exact Hv |]. split; [reflexivity |].
  unfold head. split; [now rewrite length_firstn, Hlen |]. split.
  - apply Forall_forall. intros e He.
    assert (Hin : In e counts).
    { eapply Permutation_in; [exact Hperm |].
      rewrite <- (firstn_skipn 10 (value_counts v)). apply in_or_app. now left. }
    unfold counts in Hin. apply in_map_iff in Hin. destruct Hin as (g & <- & Hg).
    simpl. apply count_of_pos. now apply in_unique.
  - intros Hfew. rewrite firstn_all2 by lia.
    rewrite (list_sum_perm _ _ (Permutation_map snd Hperm)).
    unfold counts. rewrite map_map. simpl.
    apply sum_counts_eq; [apply NoDup_unique |].
    intros y Hy. now apply in_unique.
Qed.

Lemma pie_shows_every_value_witness :
  NoDup (columns cars) /\
  categorical_cols cars <> [] /\
  exists d x v data,
    script cars no_choice = Ok d /\
    selectbox String.eqb (categorical_cols cars) (w_pie_col no_choice) = Some x /\
    getitem (preview d) (Some x) = Ok (ObjectSeries v) /\
    pie d = Some data /\
    List.length data = Nat.min 10 (List.length (unique (dropna v))) /\
    Forall (fun e => 1 <= snd e) data /\
    (List.length (unique (dropna v)) <= 10 ->
     list_sum (map snd data) = List.length (dropna v)).
Proof.
  assert (Hcat : categorical_cols cars <> []) by discriminate.
  split; [exact cars_columns_distinct |]. split; [exact Hcat |].
  exact (pie_shows_every_value cars no_choice cars_columns_distinct Hcat).
Defined.

Lemma dropna_repeat {A : Type} (x : A) (n : nat) :
  dropna (repeat (Some x) n) = repeat x n.
Proof. induction n as [| n IH]; simpl; [reflexivity | now rewrite IH]. Qed.

Lemma count_of_repeat (x : string) (n : nat) : count_of x (repeat x n) = n.
Proof.
  unfold count_of. induction n as [| n IH]; simpl; [reflexivity |].
  rewrite String.eqb_refl. simpl. now rewrite IH.
Qed.

Lemma unique_repeat (x : string) (n : nat) : unique (repeat x (S n)) = [x].
Proof.
  simpl. f_equal.
  assert (H : forall l, (forall y, In y l -> y = x) ->
                        filter (fun b => negb (b =? x)) l = []).
  { induction l as [| a l IH]; intros Hl; [reflexivity |].
    simpl. rewrite (Hl a (or_introl eq_refl)), String.eqb_refl. simpl.
    apply IH. intros y Hy. apply Hl. now right. }
  apply H. intros y Hy. apply (proj1 (in_unique y _)) in Hy.
  now apply repeat_spec in Hy.
Qed.

Lemma float_values_length (s : series) (vals : list (option Q)) :
  float_values s = Ok vals -> List.length vals = series_len s.
Proof.
  destruct s; simpl; intros H; inversion H; subst;
    try reflexivity; apply length_map.
Qed.

(** X13: after a filter on a value [sel] of the column [col], a pie chart
    of [col] has the one slice [sel], counting every row shown, and a bar
    chart by [col] has the one bar [sel], whose height is the mean of the
    numeric column chosen over all the rows shown. *)
Theorem charts_on_filter_column (base : table) (w : widgets) (col : string)
    (v : list (option string)) (sel : string) :
  well_formed base ->
  selectbox String.eqb (categorical_cols base) (w_main_cat_col w) = Some col ->
  getitem base (Some col) = Ok (ObjectSeries v) ->
  selectbox String.eqb (unique_vals v) (w_selected_cat w) = Some sel ->
  sel <> "All" ->
  exists d,
    script base w = Ok d /\
    (selectbox String.eqb (categorical_cols base) (w_pie_col w) = Some col ->
     pie d = Some [(sel, nrows (preview d))]) /\
    (selectbox String.eqb (categorical_cols base) (w_x_col w) = Some col ->
     numeric_cols base <> [] ->
     exists y sy vals,
       selectbox String.eqb (numeric_cols base) (w_y_col w) = Some y /\
       getitem (preview d) (Some y) = Ok sy /\
       float_values sy = Ok vals /\
       bar d = Some [(sel, nanmean vals)]).
Proof.
  intros Hwf Hcol Hv Hsel Hne. pose proof Hwf as [Hnd _].
  destruct (filtered_table_spec base w col v sel Hwf Hcol Hv Hsel Hne)
    as (Hside & Hg & Hrows & Hpos).
  destruct (script_spec base w Hnd)
    as (df & o & k & b & s & h & p & Hf & Hs & _ & Hb & _ & _ & Hp & H).
  assert (df = boolean_index base (eq_value v sel)) by congruence. subst df.
  set (df := boolean_index base (eq_value v sel)) in *.
  set (n := count_of sel (dropna v)) in *.
  destruct n as [| n'] eqn:Hn; [lia |].
  pose proof (boolean_index_well_formed base (eq_value v sel) Hwf) as [_ Hlen].
  fold df in Hlen.
  eexists. split; [exact H |]. cbn [preview pie bar]. split.
  - intros Hpie.
    destruct (pie_chart_spec base df w Hs Hnd)
      as [[E _] | (_ & x & v' & Hx & Hv' & E)].
    + apply selectbox_In in Hpie; [| apply string_eqb_true].
      rewrite E in Hpie. contradiction.
    + assert (x = col) by congruence. subst x.
      assert (v' = repeat (Some sel) (S n')) by congruence. subst v'.
      assert (p = Some (head 10 (value_counts (repeat (Some sel) (S n')))))
        by congruence.
      subst p. rewrite Hrows. unfold value_counts.
      rewrite dropna_repeat, unique_repeat. cbn [map].
      rewrite count_of_repeat. reflexivity.
  - intros Hx Hnum.
    destruct (bar_chart_spec base df w Hs Hnd)
      as [[[E | E] _] | (_ & _ & x & y & keys & sy & vals & Hx' & Hy & Hk & Hsy & Hvals & E)].
    + apply selectbox_In in Hx; [| apply string_eqb_true].
      rewrite E in Hx. contradiction.
    + contradiction.
    + assert (x = col) by congruence. subst x.
      assert (keys = repeat (Some sel) (S n')) by congruence. subst keys.
      exists y, sy, vals. repeat (split; [assumption |]).
      assert (b = Some (head 15 (sort_values_desc
                                   (groupby_mean (repeat (Some sel) (S n')) vals))))
        by congruence.
      subst b. unfold groupby_mean, group_values.
      rewrite dropna_repeat, unique_repeat. cbn [sorted sort_by fold_right insert map].
      rewrite eq_value_repeat, take_mask_true; [reflexivity |].
      rewrite (float_values_length sy vals Hvals).
      apply getitem_Ok_In in Hsy. destruct Hsy as (c & _ & Hin).
      pose proof (Hlen _ Hin) as Hl. simpl in Hl. rewrite Hl, Hrows. lia.
Qed.

Lemma charts_on_filter_column_witness :
  let v := [Some "Honda"; Some "Honda"; Some "Toyota"] in
  well_formed cars /\
  selectbox String.eqb (categorical_cols cars) (w_main_cat_col (pick "Honda"))
  = Some "Manufacturer" /\
  getitem cars (Some "Manufacturer") = Ok (ObjectSeries v) /\
  selectbox String.eqb (unique_vals v) (w_selected_cat (pick "Honda")) = Some "Honda" /\
  "Honda" <> "All" /\
  exists d,
    script cars (pick "Honda") = Ok d /\
    (selectbox String.eqb (categorical_cols cars) (w_pie_col (pick "Honda"))
     = Some "Manufacturer" ->
     pie d = Some [("Honda", nrows (preview d))]) /\
    (selectbox String.eqb (categorical_cols cars) (w_x_col (pick "Honda"))
     = Some "Manufacturer" ->
     numeric_cols cars <> [] ->
     exists y sy vals,
       selectbox String.eqb (numeric_cols cars) (w_y_col (pick "Honda")) = Some y /\
       getitem (preview d) (Some y) = Ok sy /\
       float_values sy = Ok vals /\
       bar d = Some [("Honda", nanmean vals)]).
Proof.
  intros v.
  assert (Hne : "Honda" <> "All") by discriminate.
  split; [exact cars_well_formed |].
  split; [reflexivity |]. split; [reflexivity |]. split; [reflexivity |].
  split; [exact Hne |].
  exact (charts_on_filter_column cars (pick "Honda") "Manufacturer" v "Honda"
           cars_well_formed eq_refl eq_refl eq_refl Hne).
Defined.

(** ** The scatter plot and the histogram *)

(** X14: the scatter plot and the histogram are drawn from the table shown;
    the scatter plot has numeric columns on both axes, no colour or a
    categorical column for it, and every column of the table in its hover
    data; the histogram has a numeric column and 25 bins. *)
Theorem chart_inputs (base : table) (w : widgets) :
  NoDup (columns base) ->
  exists d,
    script base w = Ok d /\
    (forall sp, scatter d = Some sp ->
       scatter_frame sp = preview d /\
       In (scatter_x sp) (numeric_cols base) /\
       In (scatter_y sp) (numeric_cols base) /\
       (scatter_color sp = None \/
        exists c, scatter_color sp = Some c /\ In c (categorical_cols base)) /\
       scatter_hover sp = columns base) /\
    (forall hp, histogram d = Some hp ->
       hist_frame hp = preview d /\
       In (hist_x hp) (numeric_cols base) /\
       hist_nbins hp = 25).
Proof.
  intros Hnd.
  destruct (script_spec base w Hnd)
    as (df & o & k & b & s & h & p & _ & Hs & _ & _ & Hsc & Hh & _ & H).
  eexists. split; [exact H |]. cbn [preview scatter histogram]. split.
  - intros sp Hsp. subst s.
    destruct (scatter_chart_spec base df w Hs Hnd)
      as [[_ E] | (_ & x & y & color & Hx & Hy & Hc & E)]; [congruence |].
    assert (Heq : sp = {| scatter_frame := df; scatter_x := x; scatter_y := y;
                          scatter_color := color; scatter_hover := columns df |})
      by congruence.
    subst sp. cbn [scatter_frame scatter_x scatter_y scatter_color scatter_hover].
    split; [reflexivity |].
    split; [apply (selectbox_In _ _ _ _ string_eqb_true Hx) |].
    split; [apply (selectbox_In _ _ _ _ string_eqb_true Hy) |].
    split; [| apply columns_same_schema, Hs].
    apply (selectbox_In _ _ _ _ option_eqb_true) in Hc.
    destruct Hc as [<- | Hc]; [now left | right].
    apply in_map_iff in Hc. destruct Hc as (c & <- & Hc). exists c. split; [reflexivity | exact Hc].
  - intros hp Hhp. subst h.
    destruct (histogram_chart_spec base df w Hs Hnd)
      as [[_ E] | (_ & x & Hx & E)]; [congruence |].
    assert (Heq : hp = {| hist_frame := df; hist_x := x; hist_nbins := 25 |})
      by congruence.
    subst hp. cbn [hist_frame hist_x hist_nbins].
    split; [reflexivity |]. split; [| reflexivity].
    apply (selectbox_In _ _ _ _ string_eqb_true Hx).
Qed.

Lemma chart_inputs_witness :
  NoDup (columns cars) /\
  exists d,
    script cars (pick "Honda") = Ok d /\
    (forall sp, scatter d = Some sp ->
       scatter_frame sp = preview d /\
       In (scatter_x sp) (numeric_cols cars) /\
       In (scatter_y sp) (numeric_cols cars) /\
       (scatter_color sp = None \/
        exists c, scatter_color sp = Some c /\ In c (categorical_cols cars)) /\
       scatter_hover sp = columns cars) /\
    (forall hp, histogram d = Some hp ->
       hist_frame hp = preview d /\
       In (hist_x hp) (numeric_cols cars) /\
       hist_nbins hp = 25).
Proof.
  split; [exact cars_columns_distinct |].
  exact (chart_inputs cars (pick "Honda") cars_columns_distinct).
Defined.

(** ** The exported file as an input *)


